(** * CyclicBuffer: a shallow embedding of [cyclicbuffer.cpp]

    The class [CyclicBuffer] keeps a heap block of [unsigned char] together
    with five [unsigned int] fields.  Here the block is a [list byte], the
    fields are [Z] with the 32-bit wrap-around written out, and an access
    outside the block (undefined behaviour in C++) makes an operation
    return [None]. *)

From Stdlib Require Import ZArith List Lia Bool.
From Stdlib Require Import Strings.Byte.
Import ListNotations.
Local Open Scope Z_scope.

(** ** Machine arithmetic *)

Definition UINT_MAX : Z := 4294967295.

(** Wrap-around of [unsigned int]. *)
Definition u32 (x : Z) : Z := x mod 4294967296.

(** [(unsigned char)NULL] *)
Definition NUL : byte := x00.

(** ** The error monad of memory accesses *)

Definition bind {A B : Type} (m : option A) (k : A -> option B) : option B :=
  match m with
  | Some a => k a
  | None => None
  end.

Notation "x <- m ;; k" := (bind m (fun x => k))
  (at level 61, m at next level, right associativity).

(** ** The memory block *)

Fixpoint upd (buf : list byte) (n : nat) (v : byte) : list byte :=
  match buf, n with
  | [], _ => []
  | _ :: t, O => v :: t
  | h :: t, S n' => h :: upd t n' v
  end.

(** [buffer[i]] as an rvalue. *)
Definition load (buf : list byte) (i : Z) : option byte :=
  if i <? 0 then None else nth_error buf (Z.to_nat i).

(** [buffer[i] = v]. *)
Definition store (buf : list byte) (i : Z) (v : byte) : option (list byte) :=
  if (0 <=? i) && (i <? Z.of_nat (length buf))
  then Some (upd buf (Z.to_nat i) v)
  else None.

(** ** The class *)

Inductive buffer_error : Type :=
  | BUFFER_OK
  | BUFFER_INVALID_SIZE
  | BUFFER_ALLOCATION_ERROR
  | BUFFER_INDEX_GREATER
  | BUFFER_INDEX_LESS
  | BUFFER_INDEX_COLLISION_LESS
  | BUFFER_INDEX_COLLISION_GREATER
  | BUFFER_INCORRECT_SIZE
  | BUFFER_INDEX_OUT_OF_RANGE
  | BUFFER_UNDEFINED_ERROR.

(** The enumerators' values. *)
Definition error_value (e : buffer_error) : Z :=
  match e with
  | BUFFER_OK => 0
  | BUFFER_INVALID_SIZE => 1
  | BUFFER_ALLOCATION_ERROR => 2
  | BUFFER_INDEX_GREATER => 3
  | BUFFER_INDEX_LESS => 4
  | BUFFER_INDEX_COLLISION_LESS => 5
  | BUFFER_INDEX_COLLISION_GREATER => 6
  | BUFFER_INCORRECT_SIZE => 7
  | BUFFER_INDEX_OUT_OF_RANGE => 8
  | BUFFER_UNDEFINED_ERROR => 999
  end.

Record CyclicBuffer : Type := mkCyclicBuffer {
  buffer_error_code : buffer_error;
  buffer : list byte;
  buffer_size : Z;
  top_index : Z;
  bottom_index : Z;
  write_ptr : Z;
  read_ptr : Z
}.

Definition set_error (e : buffer_error) (s : CyclicBuffer) : CyclicBuffer :=
  mkCyclicBuffer e (buffer s) (buffer_size s) (top_index s) (bottom_index s)
    (write_ptr s) (read_ptr s).

Definition set_buffer (b : list byte) (s : CyclicBuffer) : CyclicBuffer :=
  mkCyclicBuffer (buffer_error_code s) b (buffer_size s) (top_index s)
    (bottom_index s) (write_ptr s) (read_ptr s).

Definition set_size (n : Z) (s : CyclicBuffer) : CyclicBuffer :=
  mkCyclicBuffer (buffer_error_code s) (buffer s) n (top_index s)
    (bottom_index s) (write_ptr s) (read_ptr s).

Definition set_top (i : Z) (s : CyclicBuffer) : CyclicBuffer :=
  mkCyclicBuffer (buffer_error_code s) (buffer s) (buffer_size s) i
    (bottom_index s) (write_ptr s) (read_ptr s).

Definition set_bottom (i : Z) (s : CyclicBuffer) : CyclicBuffer :=
  mkCyclicBuffer (buffer_error_code s) (buffer s) (buffer_size s) (top_index s)
    i (write_ptr s) (read_ptr s).

Definition set_write (i : Z) (s : CyclicBuffer) : CyclicBuffer :=
  mkCyclicBuffer (buffer_error_code s) (buffer s) (buffer_size s) (top_index s)
    (bottom_index s) i (read_ptr s).

Definition set_read (i : Z) (s : CyclicBuffer) : CyclicBuffer :=
  mkCyclicBuffer (buffer_error_code s) (buffer s) (buffer_size s) (top_index s)
    (bottom_index s) (write_ptr s) i.

(** ** Loops

    [for (unsigned int i = from; cond(i); i++) buffer[i] = NULL;]
    The loop runs on fuel; when the fuel is gone and the condition still
    holds, the run is given up as [None].  Every caller passes the number of
    indices between the start and the bound, which is enough whenever the
    counter does not wrap. *)
Fixpoint zero_loop (fuel : nat) (cond : Z -> bool) (i : Z) (buf : list byte)
  : option (list byte) :=
  if cond i then
    match fuel with
    | O => None
    | S fuel' =>
        buf' <- store buf i NUL ;;
        zero_loop fuel' cond (u32 (i + 1)) buf'
    end
  else Some buf.

(** ** Member functions *)

(** [ClearBuffer]: [for (i = bottom_index; i < top_index; i++)]. *)
Definition ClearBuffer (s : CyclicBuffer) : option CyclicBuffer :=
  buf' <- zero_loop (Z.to_nat (top_index s - bottom_index s))
            (fun i => i <? top_index s) (bottom_index s) (buffer s) ;;
  Some (set_buffer buf' s).

(** What a constructor call leaves behind.  [Constructed]: every field is
    set and [*success] was not written.  [Failed e]: the constructor
    returned early after storing [e] in [buffer_error_code] and in [success]. *)
Inductive ctor_result : Type :=
  | Constructed (s : CyclicBuffer)
  | Failed (e : buffer_error).

(** The constructor.  [alloc] is what [new unsigned char[buf_size]] gives:
    [None] for a null pointer, [Some fresh] for a block whose bytes are
    whatever the allocator left there. *)
Definition CyclicBuffer_ctor (buf_size : Z) (alloc : option (list byte))
  : option ctor_result :=
  if buf_size =? 0 then Some (Failed BUFFER_INVALID_SIZE)
  else
    match alloc with
    | None => Some (Failed BUFFER_ALLOCATION_ERROR)
    | Some fresh =>
        let s0 := mkCyclicBuffer BUFFER_UNDEFINED_ERROR fresh buf_size
                    (u32 (buf_size - 1)) 0 0 0 in
        s1 <- ClearBuffer s0 ;;
        Some (Constructed (set_read 0 (set_write 0 s1)))
    end.

Definition Push (ch : byte) (s : CyclicBuffer) : option CyclicBuffer :=
  buf' <- store (buffer s) (write_ptr s) ch ;;
  let w := u32 (write_ptr s + 1) in
  Some (set_write (if w >? top_index s then bottom_index s else w)
          (set_buffer buf' s)).

Definition Pop (s : CyclicBuffer) : option (byte * CyclicBuffer) :=
  if read_ptr s =? write_ptr s then Some (NUL, s)
  else if read_ptr s =? top_index s then
    let s' := set_read (bottom_index s) s in
    b <- load (buffer s') (top_index s') ;;
    Some (b, s')
  else
    b <- load (buffer s) (read_ptr s) ;;
    Some (b, set_read (u32 (read_ptr s + 1)) s).

Definition SetPopIndex (index : Z) (s : CyclicBuffer)
  : CyclicBuffer * buffer_error :=
  if index >? top_index s then
    (set_error BUFFER_INDEX_GREATER s, BUFFER_INDEX_GREATER)
  else if index <? bottom_index s then
    (set_error BUFFER_INDEX_LESS s, BUFFER_INDEX_LESS)
  else
    (set_error BUFFER_OK (set_read index s), BUFFER_OK).

Definition SetPushIndex (index : Z) (s : CyclicBuffer)
  : CyclicBuffer * buffer_error :=
  if index >? top_index s then
    (set_error BUFFER_INDEX_GREATER s, BUFFER_INDEX_GREATER)
  else if index <? bottom_index s then
    (set_error BUFFER_INDEX_LESS s, BUFFER_INDEX_LESS)
  else
    (set_error BUFFER_OK (set_write index s), BUFFER_OK).

Definition SetTopIndex (index : Z) (s : CyclicBuffer)
  : option (CyclicBuffer * buffer_error) :=
  if index >? u32 (buffer_size s - 1) then
    Some (set_error BUFFER_INDEX_GREATER s, BUFFER_INDEX_GREATER)
  else if index <? bottom_index s then
    Some (set_error BUFFER_INDEX_COLLISION_LESS s, BUFFER_INDEX_COLLISION_LESS)
  else
    buf' <- (if top_index s <? index
             then zero_loop (Z.to_nat (index - top_index s))
                    (fun i => i <=? index) (u32 (top_index s + 1)) (buffer s)
             else Some (buffer s)) ;;
    let s1 := set_top index (set_buffer buf' s) in
    let s2 := if write_ptr s1 >? top_index s1
              then set_write (bottom_index s1) s1 else s1 in
    let s3 := if read_ptr s2 >? top_index s2
              then set_read (bottom_index s2) s2 else s2 in
    Some (set_error BUFFER_OK s3, BUFFER_OK).

Definition SetBottomIndex (index : Z) (s : CyclicBuffer)
  : option (CyclicBuffer * buffer_error) :=
  if index >? u32 (buffer_size s - 1) then
    Some (set_error BUFFER_INDEX_GREATER s, BUFFER_INDEX_GREATER)
  else if index >? top_index s then
    Some (set_error BUFFER_INDEX_COLLISION_GREATER s,
          BUFFER_INDEX_COLLISION_GREATER)
  else
    buf' <- (if index <? bottom_index s
             then zero_loop (Z.to_nat (bottom_index s - index))
                    (fun i => i <=? u32 (bottom_index s - 1)) index (buffer s)
             else Some (buffer s)) ;;
    let s1 := set_bottom index (set_buffer buf' s) in
    let s2 := if write_ptr s1 <? bottom_index s1
              then set_write (bottom_index s1) s1 else s1 in
    let s3 := if read_ptr s2 <? bottom_index s2
              then set_read (bottom_index s2) s2 else s2 in
    Some (set_error BUFFER_OK s3, BUFFER_OK).

(** What [realloc(buffer, size)] gives: [None] for a null pointer (the old
    block is then left as it was), [Some fresh] for a block of [size] bytes
    that starts with the old bytes, as many as fit, and goes on with the
    bytes of [fresh]. *)
Definition realloc (old : list byte) (size : Z) (outcome : option (list byte))
  : option (list byte) :=
  match outcome with
  | None => None
  | Some fresh => Some (firstn (Z.to_nat size) (old ++ fresh))
  end.

Definition ReallocBuffer (size : Z) (outcome : option (list byte))
    (s : CyclicBuffer) : CyclicBuffer * buffer_error :=
  if size =? 0 then
    (set_error BUFFER_INCORRECT_SIZE s, BUFFER_INCORRECT_SIZE)
  else if size =? buffer_size s then
    (set_error BUFFER_OK s, BUFFER_OK)
  else
    match realloc (buffer s) size outcome with
    | None => (set_error BUFFER_ALLOCATION_ERROR s, BUFFER_ALLOCATION_ERROR)
    | Some temp_buf =>
        let s1 := set_size size (set_buffer temp_buf s) in
        let highest_index := u32 (buffer_size s1 - 1) in
        let s2 := if top_index s1 >? highest_index
                  then set_top highest_index s1 else s1 in
        let s3 := if bottom_index s2 >? highest_index
                  then set_bottom highest_index s2 else s2 in
        let s4 := if read_ptr s3 >? highest_index
                  then set_read (bottom_index s3) s3 else s3 in
        let s5 := if write_ptr s4 >? highest_index
                  then set_write 0 s4 else s4 in
        (set_error BUFFER_OK s5, BUFFER_OK)
    end.

(** [ResetBuffer]: [for (i = 0; i <= top_index; i++)]. *)
Definition ResetBuffer (s : CyclicBuffer) : option CyclicBuffer :=
  let s1 := set_top (u32 (buffer_size s - 1)) s in
  let s2 := set_read 0 (set_write 0 (set_bottom 0 s1)) in
  buf' <- zero_loop (Z.to_nat (top_index s2 + 1))
            (fun i => i <=? top_index s2) 0 (buffer s2) ;;
  Some (set_buffer buf' s2).

(** The index translation shared by [GetValueAt] and [SetValueAt]:
    [index_t = index; if (use_offset) index_t += bottom_index;]. *)
Definition translate (index : Z) (use_offset : bool) (s : CyclicBuffer) : Z :=
  if use_offset then u32 (index + bottom_index s) else index.

Definition GetValueAt (index : Z) (use_offset look_outside_borders : bool)
    (s : CyclicBuffer) : option byte :=
  let index_t := translate index use_offset s in
  if index_t >=? buffer_size s then Some NUL
  else if negb look_outside_borders
          && ((index_t >? top_index s) || (index_t <? bottom_index s))
  then Some NUL
  else load (buffer s) index_t.

Definition SetValueAt (index : Z) (value : byte)
    (use_offset look_outside_borders : bool) (s : CyclicBuffer)
  : option (CyclicBuffer * buffer_error) :=
  let index_t := translate index use_offset s in
  if index_t >=? buffer_size s then Some (s, BUFFER_INDEX_OUT_OF_RANGE)
  else if negb look_outside_borders
          && ((index_t >? top_index s) || (index_t <? bottom_index s))
  then Some (s, BUFFER_INDEX_OUT_OF_RANGE)
  else
    buf' <- store (buffer s) index_t value ;;
    Some (set_buffer buf' s, BUFFER_OK).

(** The two range checks that [GetValueAt] and [SetValueAt] share. *)
Definition rejected (index_t : Z) (look_outside_borders : bool)
    (s : CyclicBuffer) : bool :=
  (index_t >=? buffer_size s)
  || (negb look_outside_borders
      && ((index_t >? top_index s) || (index_t <? bottom_index s))).

(** Accessors. *)
Definition GetTotalBufferSize (s : CyclicBuffer) : Z := buffer_size s.
Definition GetBufferSize (s : CyclicBuffer) : Z :=
  u32 (u32 (top_index s - bottom_index s) + 1).
Definition GetPopIndex (s : CyclicBuffer) : Z := read_ptr s.
Definition GetPushIndex (s : CyclicBuffer) : Z := write_ptr s.
Definition GetBottomIndex (s : CyclicBuffer) : Z := bottom_index s.
Definition GetTopIndex (s : CyclicBuffer) : Z := top_index s.

(** ** Sequences of calls *)

(** [for (c : chars) Push(c);] *)
Fixpoint Push_all (chars : list byte) (s : CyclicBuffer) : option CyclicBuffer :=
  match chars with
  | [] => Some s
  | c :: rest => s' <- Push c s ;; Push_all rest s'
  end.

(** [n] calls of [Pop], the returned bytes in the order of the calls. *)
Fixpoint Pop_n (n : nat) (s : CyclicBuffer) : option (list byte * CyclicBuffer) :=
  match n with
  | O => Some ([], s)
  | S n' =>
      r <- Pop s ;;
      r' <- Pop_n n' (snd r) ;;
      Some (fst r :: fst r', snd r')
  end.

(** ** Invariants *)

(** The block and the borders: the block has [buffer_size] bytes, the size
    fits an [unsigned int], and the borders lie inside the block. *)
Definition mem_inv (s : CyclicBuffer) : Prop :=
  1 <= buffer_size s <= UINT_MAX /\
  Z.of_nat (length (buffer s)) = buffer_size s /\
  0 <= bottom_index s <= top_index s /\
  top_index s <= buffer_size s - 1.

(** Both cursors lie between the borders. *)
Definition cursor_inv (s : CyclicBuffer) : Prop :=
  bottom_index s <= write_ptr s <= top_index s /\
  bottom_index s <= read_ptr s <= top_index s.

Definition wf (s : CyclicBuffer) : Prop := mem_inv s /\ cursor_inv s.

(** The successor of a cursor inside the window. *)
Definition next (s : CyclicBuffer) (i : Z) : Z :=
  if i =? top_index s then bottom_index s else i + 1.

(** [unread s r l]: walking from [r] to [write_ptr s] with [next] meets
    the bytes [l], in this order. *)
Inductive unread (s : CyclicBuffer) : Z -> list byte -> Prop :=
  | unread_nil : unread s (write_ptr s) []
  | unread_cons r x l :
      r <> write_ptr s ->
      bottom_index s <= r <= top_index s ->
      load (buffer s) r = Some x ->
      unread s (next s r) l ->
      unread s r (x :: l).

(** The number of steps of [next] from [r] to [w]. *)
Definition dist (s : CyclicBuffer) (r w : Z) : Z :=
  if r <=? w then w - r else w - r + (top_index s - bottom_index s + 1).

(** A buffer of 16 bytes as [main] builds it; the allocator's bytes are
    taken to be ['#']. *)
Definition fresh16 : list byte := repeat "#"%byte 16.

(** The object after [new CyclicBuffer(16, &s)] on that block. *)
Definition buf16 : CyclicBuffer :=
  mkCyclicBuffer BUFFER_UNDEFINED_ERROR (repeat NUL 15 ++ ["#"%byte])
    16 15 0 0 0.

(** [buf16] after [SetBottomIndex(5)]. *)
Definition buf16_bottom5 : CyclicBuffer :=
  mkCyclicBuffer BUFFER_OK (repeat NUL 15 ++ ["#"%byte]) 16 15 5 5 5.

(** [buf16_bottom5] after [SetPushIndex(12)]. *)
Definition buf16_bottom5_push12 : CyclicBuffer :=
  mkCyclicBuffer BUFFER_OK (repeat NUL 15 ++ ["#"%byte]) 16 15 5 12 5.

(** [buf16] after [SetPushIndex(12)]. *)
Definition buf16_push12 : CyclicBuffer :=
  mkCyclicBuffer BUFFER_OK (repeat NUL 15 ++ ["#"%byte]) 16 15 0 12 0.

(** [buf16_bottom5] after [SetValueAt(0, 'Z', false, true)]. *)
Definition buf16_bottom5_Z : CyclicBuffer :=
  mkCyclicBuffer BUFFER_OK ("Z"%byte :: repeat NUL 14 ++ ["#"%byte])
    16 15 5 5 5.

(** A block of four bytes as the allocator may hand it out, and the object
    the constructor makes of it. *)
Definition fresh4 : list byte := ["a"; "b"; "c"; "d"]%byte.

Definition buf4 : CyclicBuffer :=
  mkCyclicBuffer BUFFER_UNDEFINED_ERROR [NUL; NUL; NUL; "d"%byte] 4 3 0 0 0.

(** ** Interleaved calls and the queue they implement *)

(** A call of [Push] or of [Pop], as [main] issues them. *)
Inductive call : Type :=
  | CallPush (ch : byte)
  | CallPop.

(** The calls run in order on the object; the result lists what the
    [Pop]s returned. *)
Fixpoint run (cs : list call) (s : CyclicBuffer)
  : option (list byte * CyclicBuffer) :=
  match cs with
  | [] => Some ([], s)
  | CallPush ch :: rest => s' <- Push ch s ;; run rest s'
  | CallPop :: rest =>
      r <- Pop s ;;
      r' <- run rest (snd r) ;;
      Some (fst r :: fst r', snd r')
  end.

(** The reference the code is compared with: a first-in first-out queue
    [q] that may hold fewer than [window] bytes.  A [Pop] of the empty
    queue gives the zero byte; a [Push] that would fill the last place is
    outside the reference ([None]). *)
Fixpoint queue_run (window : Z) (cs : list call) (q : list byte)
  : option (list byte) :=
  match cs with
  | [] => Some []
  | CallPush ch :: rest =>
      if Z.of_nat (length q) + 1 <? window
      then queue_run window rest (q ++ [ch])
      else None
  | CallPop :: rest =>
      match q with
      | [] => out <- queue_run window rest [] ;; Some (NUL :: out)
      | x :: q' => out <- queue_run window rest q' ;; Some (x :: out)
      end
  end.

(** [buf16] after [SetTopIndex(10)]. *)
Definition buf16_top10 : CyclicBuffer :=
  mkCyclicBuffer BUFFER_OK (repeat NUL 15 ++ ["#"%byte]) 16 10 0 0 0.

(** [buf16] after [Push('A')], [Push('B')], [Push('C')], [Push('D')]. *)
Definition buf16_ABCD : CyclicBuffer :=
  mkCyclicBuffer BUFFER_UNDEFINED_ERROR
    (["A"; "B"; "C"; "D"]%byte ++ repeat NUL 11 ++ ["#"%byte]) 16 15 0 4 0.

(** ** Proof automation *)

(** Record updates. *)
Ltac unfold_setters :=
  unfold set_error, set_buffer, set_size, set_top, set_bottom, set_write,
    set_read in *; simpl in *.

(** Comparisons of the code turned into propositions. *)
Ltac cases :=
  repeat match goal with
    | |- context [?a >? ?b] => destruct (Z.gtb_spec a b)
    | |- context [?a <? ?b] => destruct (Z.ltb_spec a b)
    | |- context [?a <=? ?b] => destruct (Z.leb_spec a b)
    | |- context [?a >=? ?b] => rewrite (Z.geb_leb a b)
    | |- context [?a =? ?b] => destruct (Z.eqb_spec a b)
    end.

(** * Proofs *)

(** ** The memory block *)

Lemma u32_small (x : Z) : 0 <= x <= UINT_MAX -> u32 x = x.
Proof.
  unfold u32, UINT_MAX. intros H. apply Z.mod_small. lia.
Qed.

Lemma length_upd (buf : list byte) (n : nat) (v : byte) :
  length (upd buf n v) = length buf.
Proof.
  revert n. induction buf as [|h t IH]; intros [|n]; simpl; auto.
Qed.

Lemma nth_error_upd_same (buf : list byte) (n : nat) (v : byte) :
  (n < length buf)%nat -> nth_error (upd buf n v) n = Some v.
Proof.
  revert n. induction buf as [|h t IH]; intros [|n]; simpl; intros H;
    try lia; auto.
  apply IH. lia.
Qed.

Lemma nth_error_upd_other (buf : list byte) (n m : nat) (v : byte) :
  n <> m -> nth_error (upd buf n v) m = nth_error buf m.
Proof.
  revert n m. induction buf as [|h t IH]; intros [|n] [|m]; simpl; intros H;
    try congruence.
  apply IH. congruence.
Qed.

Lemma store_in_range (buf : list byte) (i : Z) (v : byte) :
  0 <= i < Z.of_nat (length buf) ->
  store buf i v = Some (upd buf (Z.to_nat i) v).
Proof.
  intros [H0 H1]. unfold store.
  apply Z.leb_le in H0. apply Z.ltb_lt in H1. now rewrite H0, H1.
Qed.

Lemma store_inv (buf buf' : list byte) (i : Z) (v : byte) :
  store buf i v = Some buf' ->
  0 <= i < Z.of_nat (length buf) /\ buf' = upd buf (Z.to_nat i) v.
Proof.
  unfold store. destruct (0 <=? i) eqn:H0; simpl; try discriminate.
  destruct (i <? Z.of_nat (length buf)) eqn:H1; try discriminate.
  intros [= <-]. apply Z.leb_le in H0. apply Z.ltb_lt in H1. auto.
Qed.

Lemma length_store (buf buf' : list byte) (i : Z) (v : byte) :
  store buf i v = Some buf' -> length buf' = length buf.
Proof.
  intros H. apply store_inv in H as [_ ->]. apply length_upd.
Qed.

Lemma load_store_same (buf buf' : list byte) (i : Z) (v : byte) :
  store buf i v = Some buf' -> load buf' i = Some v.
Proof.
  intros H. apply store_inv in H as [[H0 H1] ->]. unfold load.
  destruct (i <? 0) eqn:E; [apply Z.ltb_lt in E; lia|].
  apply nth_error_upd_same. lia.
Qed.

Lemma load_store_other (buf buf' : list byte) (i j : Z) (v : byte) :
  store buf i v = Some buf' -> j <> i -> load buf' j = load buf j.
Proof.
  intros H Hne. apply store_inv in H as [[H0 H1] ->]. unfold load.
  destruct (j <? 0) eqn:E; auto. apply Z.ltb_ge in E.
  apply nth_error_upd_other. intros Heq. apply Hne.
  apply Z2Nat.inj; lia.
Qed.

Lemma load_in_range (buf : list byte) (i : Z) :
  0 <= i < Z.of_nat (length buf) -> exists b, load buf i = Some b.
Proof.
  intros [H0 H1]. unfold load.
  destruct (i <? 0) eqn:E; [apply Z.ltb_lt in E; lia|].
  destruct (nth_error buf (Z.to_nat i)) as [b|] eqn:N; eauto.
  apply nth_error_None in N. lia.
Qed.

(** Goals about the invariants after a record update. *)
Ltac wf_arith :=
  unfold wf, mem_inv, cursor_inv in *; unfold_setters;
  rewrite ?length_upd; cases; lia.

(** ** The zeroing loop *)

(** With [n] indices to visit, none of them past the block or past
    [UINT_MAX], the loop ends; it zeroes these [n] bytes and no other. *)
Lemma zero_loop_spec (n : nat) (cond : Z -> bool) :
  forall (i : Z) (buf : list byte),
    (forall j, i <= j < i + Z.of_nat n -> cond j = true) ->
    cond (i + Z.of_nat n) = false ->
    0 <= i ->
    i + Z.of_nat n <= Z.of_nat (length buf) ->
    i + Z.of_nat n <= UINT_MAX ->
    exists buf',
      zero_loop n cond i buf = Some buf' /\
      length buf' = length buf /\
      (forall j, i <= j < i + Z.of_nat n -> load buf' j = Some NUL) /\
      (forall j, j < i \/ i + Z.of_nat n <= j -> load buf' j = load buf j).
Proof.
  induction n as [|n IH]; intros i buf Hin Hout H0 Hlen Hmax.
  - simpl. replace (i + Z.of_nat 0) with i in Hout by lia. rewrite Hout.
    exists buf. repeat split; auto. intros j Hj. lia.
  - simpl zero_loop. rewrite (Hin i) by lia.
    assert (Hst : store buf i NUL = Some (upd buf (Z.to_nat i) NUL))
      by (apply store_in_range; lia).
    rewrite Hst. simpl bind. rewrite u32_small by lia.
    destruct (IH (i + 1) (upd buf (Z.to_nat i) NUL)) as (buf' & Hz & Hl & Hz0 & Hk).
    + intros j Hj. apply Hin. lia.
    + replace (i + 1 + Z.of_nat n) with (i + Z.of_nat (S n)) by lia. exact Hout.
    + lia.
    + rewrite length_upd. lia.
    + lia.
    + exists buf'. rewrite length_upd in Hl. repeat split; auto.
      * intros j Hj. destruct (Z.eq_dec j i) as [->|Hne].
        -- rewrite Hk by lia. eapply load_store_same; eauto.
        -- apply Hz0. lia.
      * intros j Hj. rewrite Hk by lia.
        eapply load_store_other; eauto. lia.
Qed.


(** ** The concrete objects are the ones the code builds *)

Example buf16_constructed :
  CyclicBuffer_ctor 16 (Some fresh16) = Some (Constructed buf16).
Proof. reflexivity. Qed.

Example buf16_bottom5_reached :
  SetBottomIndex 5 buf16 = Some (buf16_bottom5, BUFFER_OK).
Proof. reflexivity. Qed.

Example buf16_bottom5_push12_reached :
  SetPushIndex 12 buf16_bottom5 = (buf16_bottom5_push12, BUFFER_OK).
Proof. reflexivity. Qed.

Example buf16_push12_reached :
  SetPushIndex 12 (set_error BUFFER_OK buf16) = (buf16_push12, BUFFER_OK).
Proof. reflexivity. Qed.

Example buf16_bottom5_Z_reached :
  SetValueAt 0 "Z" false true buf16_bottom5 = Some (buf16_bottom5_Z, BUFFER_OK).
Proof. reflexivity. Qed.

Example buf4_constructed :
  CyclicBuffer_ctor 4 (Some fresh4) = Some (Constructed buf4).
Proof. reflexivity. Qed.

Lemma wf_buf16 : wf buf16.
Proof. unfold wf, mem_inv, cursor_inv, UINT_MAX; simpl; lia. Qed.

Lemma wf_buf4 : wf buf4.
Proof. unfold wf, mem_inv, cursor_inv, UINT_MAX; simpl; lia. Qed.

Lemma wf_buf16_bottom5_push12 : wf buf16_bottom5_push12.
Proof. unfold wf, mem_inv, cursor_inv, UINT_MAX; simpl; lia. Qed.

Lemma wf_buf16_bottom5_Z : wf buf16_bottom5_Z.
Proof. unfold wf, mem_inv, cursor_inv, UINT_MAX; simpl; lia. Qed.

(** ** Reading with nothing new to read *)

(** C9: when [read_ptr == write_ptr], [Pop] returns the zero byte and
    leaves the whole object, both cursors included, as it was. *)
Theorem Pop_nothing_to_read (s : CyclicBuffer) :
  read_ptr s = write_ptr s -> Pop s = Some (NUL, s).
Proof.
  intros H. unfold Pop. rewrite H, Z.eqb_refl. reflexivity.
Qed.

Lemma Pop_nothing_to_read_witness :
  read_ptr buf16 = write_ptr buf16 /\ Pop buf16 = Some (NUL, buf16).
Proof.
  split; [reflexivity | apply (Pop_nothing_to_read buf16); reflexivity].
Defined.

(** ** Random access *)

Lemma GetValueAt_unfold index uo lo s :
  GetValueAt index uo lo s =
  if rejected (translate index uo s) lo s then Some NUL
  else load (buffer s) (translate index uo s).
Proof.
  unfold GetValueAt, rejected.
  destruct (translate index uo s >=? buffer_size s); simpl; auto.
Qed.

Lemma SetValueAt_unfold index v uo lo s :
  SetValueAt index v uo lo s =
  if rejected (translate index uo s) lo s
  then Some (s, BUFFER_INDEX_OUT_OF_RANGE)
  else buf' <- store (buffer s) (translate index uo s) v ;;
       Some (set_buffer buf' s, BUFFER_OK).
Proof.
  unfold SetValueAt, rejected.
  destruct (translate index uo s >=? buffer_size s); simpl; auto.
Qed.

(** C8: a [SetValueAt] that returns [BUFFER_OK] is read back by
    [GetValueAt] with the same index and flags; and when the translated
    index is at least [buffer_size], [GetValueAt] returns the zero byte and
    [SetValueAt] returns [BUFFER_INDEX_OUT_OF_RANGE]. *)
Theorem SetValueAt_then_GetValueAt
    (s : CyclicBuffer) (index : Z) (value : byte)
    (use_offset look_outside_borders : bool) :
  (forall s',
      SetValueAt index value use_offset look_outside_borders s
        = Some (s', BUFFER_OK) ->
      GetValueAt index use_offset look_outside_borders s' = Some value) /\
  (translate index use_offset s >= buffer_size s ->
   GetValueAt index use_offset look_outside_borders s = Some NUL /\
   SetValueAt index value use_offset look_outside_borders s
     = Some (s, BUFFER_INDEX_OUT_OF_RANGE)).
Proof.
  split.
  - intros s'. rewrite SetValueAt_unfold, GetValueAt_unfold.
    destruct (rejected (translate index use_offset s) look_outside_borders s)
      eqn:R; [discriminate|].
    destruct (store (buffer s) (translate index use_offset s) value)
      as [buf'|] eqn:St; simpl; [|discriminate].
    intros [= <-].
    replace (translate index use_offset (set_buffer buf' s))
      with (translate index use_offset s) by (destruct use_offset; reflexivity).
    replace (rejected (translate index use_offset s) look_outside_borders
               (set_buffer buf' s)) with false by (rewrite <- R; reflexivity).
    simpl. eapply load_store_same; eauto.
  - intros H.
    assert (G : (translate index use_offset s >=? buffer_size s) = true)
      by (apply Z.geb_le; lia).
    unfold GetValueAt, SetValueAt. rewrite G. auto.
Qed.

Lemma SetValueAt_then_GetValueAt_witness :
  GetValueAt 1 true false (set_buffer (upd (buffer buf16) 1 "X"%byte) buf16)
    = Some "X"%byte /\
  (GetValueAt 16 true false buf16 = Some NUL /\
   SetValueAt 16 "X"%byte true false buf16
     = Some (buf16, BUFFER_INDEX_OUT_OF_RANGE)).
Proof.
  split.
  - apply (proj1 (SetValueAt_then_GetValueAt buf16 1 "X"%byte true false)).
    reflexivity.
  - apply (proj2 (SetValueAt_then_GetValueAt buf16 16 "X"%byte true false)).
    vm_compute. discriminate.
Defined.

(** ** Reallocation *)

(** C7: when [realloc] gives a null pointer, [ReallocBuffer] returns
    [BUFFER_ALLOCATION_ERROR] and the size, both borders, both cursors and
    the whole block are as before; only the cached code is written. *)
Theorem ReallocBuffer_allocation_failure (s : CyclicBuffer) (size : Z) :
  size <> 0 ->
  size <> buffer_size s ->
  let r := ReallocBuffer size None s in
  snd r = BUFFER_ALLOCATION_ERROR /\
  fst r = set_error BUFFER_ALLOCATION_ERROR s /\
  buffer_size (fst r) = buffer_size s /\
  bottom_index (fst r) = bottom_index s /\
  top_index (fst r) = top_index s /\
  write_ptr (fst r) = write_ptr s /\
  read_ptr (fst r) = read_ptr s /\
  buffer (fst r) = buffer s.
Proof.
  intros H0 Hne. unfold ReallocBuffer.
  destruct (Z.eqb_spec size 0) as [|_]; [contradiction|].
  destruct (Z.eqb_spec size (buffer_size s)) as [|_]; [contradiction|].
  simpl. repeat split.
Qed.

Lemma ReallocBuffer_allocation_failure_witness :
  let r := ReallocBuffer 32 None buf16 in
  snd r = BUFFER_ALLOCATION_ERROR /\
  fst r = set_error BUFFER_ALLOCATION_ERROR buf16 /\
  buffer_size (fst r) = buffer_size buf16 /\
  bottom_index (fst r) = bottom_index buf16 /\
  top_index (fst r) = top_index buf16 /\
  write_ptr (fst r) = write_ptr buf16 /\
  read_ptr (fst r) = read_ptr buf16 /\
  buffer (fst r) = buffer buf16.
Proof.
  apply (ReallocBuffer_allocation_failure buf16 32); simpl; lia.
Defined.

(** At size zero the code that comes back is [BUFFER_INCORRECT_SIZE]
    (value 7) and not [BUFFER_INVALID_SIZE] (value 1), and the object is
    not what it was: its cached code has been overwritten. *)
Lemma ReallocBuffer_zero_is_not_INVALID_SIZE :
  snd (ReallocBuffer 0 None buf16) <> BUFFER_INVALID_SIZE /\
  error_value (snd (ReallocBuffer 0 None buf16)) = 7 /\
  fst (ReallocBuffer 0 None buf16) <> buf16.
Proof.
  repeat split; simpl; discriminate.
Qed.

(** C4, as the code has it: at size zero [ReallocBuffer] returns
    [BUFFER_INCORRECT_SIZE], caches it and writes no other field; at the
    current size it returns [BUFFER_OK], caches it and writes no other
    field, so no index changes. *)
Theorem ReallocBuffer_trivial_sizes
    (s : CyclicBuffer) (outcome : option (list byte)) :
  ReallocBuffer 0 outcome s
    = (set_error BUFFER_INCORRECT_SIZE s, BUFFER_INCORRECT_SIZE) /\
  (buffer_size s <> 0 ->
   ReallocBuffer (buffer_size s) outcome s = (set_error BUFFER_OK s, BUFFER_OK)).
Proof.
  split.
  - reflexivity.
  - intros H. unfold ReallocBuffer.
    destruct (Z.eqb_spec (buffer_size s) 0) as [|_]; [contradiction|].
    now rewrite Z.eqb_refl.
Qed.

Lemma ReallocBuffer_trivial_sizes_witness :
  ReallocBuffer 0 (Some []) buf16
    = (set_error BUFFER_INCORRECT_SIZE buf16, BUFFER_INCORRECT_SIZE) /\
  ReallocBuffer 16 (Some []) buf16 = (set_error BUFFER_OK buf16, BUFFER_OK).
Proof.
  split.
  - apply (proj1 (ReallocBuffer_trivial_sizes buf16 (Some []))).
  - apply (proj2 (ReallocBuffer_trivial_sizes buf16 (Some []))).
    simpl. lia.
Defined.

(** ** The cached code *)

(** On the fresh object of [main], [SetValueAt(1, 'X')] returns
    [BUFFER_OK] while [buffer_error_code] still holds
    [BUFFER_UNDEFINED_ERROR]; and a [Push] after a refused [SetPopIndex]
    leaves the refusal's code in the field. *)
Lemma SetValueAt_status_not_cached :
  (exists s',
      SetValueAt 1 "X"%byte true false buf16 = Some (s', BUFFER_OK) /\
      buffer_error_code s' = BUFFER_UNDEFINED_ERROR /\
      buffer_error_code s' <> BUFFER_OK) /\
  (exists s',
      Push "A"%byte (fst (SetPopIndex 16 buf16)) = Some s' /\
      buffer_error_code s' = BUFFER_INDEX_GREATER).
Proof.
  split; eexists; repeat split; simpl; discriminate.
Qed.

(** C6, as the code has it: [SetPopIndex], [SetPushIndex], [SetTopIndex],
    [SetBottomIndex] and [ReallocBuffer] store the code they return in
    [buffer_error_code]; [Push], [Pop], [ResetBuffer] and [ClearBuffer]
    return no code and leave the field as it was. *)
Theorem status_is_cached
    (s : CyclicBuffer) (index size : Z) (outcome : option (list byte))
    (ch : byte) :
  buffer_error_code (fst (SetPopIndex index s)) = snd (SetPopIndex index s) /\
  buffer_error_code (fst (SetPushIndex index s)) = snd (SetPushIndex index s) /\
  (forall r, SetTopIndex index s = Some r ->
             buffer_error_code (fst r) = snd r) /\
  (forall r, SetBottomIndex index s = Some r ->
             buffer_error_code (fst r) = snd r) /\
  buffer_error_code (fst (ReallocBuffer size outcome s))
    = snd (ReallocBuffer size outcome s) /\
  (forall s', Push ch s = Some s' ->
              buffer_error_code s' = buffer_error_code s) /\
  (forall r, Pop s = Some r ->
             buffer_error_code (snd r) = buffer_error_code s) /\
  (forall s', ResetBuffer s = Some s' ->
              buffer_error_code s' = buffer_error_code s) /\
  (forall s', ClearBuffer s = Some s' ->
              buffer_error_code s' = buffer_error_code s).
Proof.
  repeat split.
  - unfold SetPopIndex. cases; reflexivity.
  - unfold SetPushIndex. cases; reflexivity.
  - intros r. unfold SetTopIndex.
    destruct (index >? u32 (buffer_size s - 1)); [now intros [= <-]|].
    destruct (index <? bottom_index s); [now intros [= <-]|].
    match goal with |- bind ?m _ = _ -> _ => destruct m; simpl end;
      [now intros [= <-]|discriminate].
  - intros r. unfold SetBottomIndex.
    destruct (index >? u32 (buffer_size s - 1)); [now intros [= <-]|].
    destruct (index >? top_index s); [now intros [= <-]|].
    match goal with |- bind ?m _ = _ -> _ => destruct m; simpl end;
      [now intros [= <-]|discriminate].
  - unfold ReallocBuffer.
    destruct (size =? 0); [reflexivity|].
    destruct (size =? buffer_size s); [reflexivity|].
    destruct (realloc (buffer s) size outcome); reflexivity.
  - intros s'. unfold Push.
    destruct (store (buffer s) (write_ptr s) ch); simpl; [|discriminate].
    now intros [= <-].
  - intros r. unfold Pop.
    destruct (read_ptr s =? write_ptr s); [now intros [= <-]|].
    destruct (read_ptr s =? top_index s).
    + simpl. destruct (load (buffer s) (top_index s)); simpl; [|discriminate].
      now intros [= <-].
    + destruct (load (buffer s) (read_ptr s)); simpl; [|discriminate].
      now intros [= <-].
  - intros s'. unfold ResetBuffer.
    match goal with |- bind ?m _ = _ -> _ => destruct m; simpl end;
      [now intros [= <-]|discriminate].
  - intros s'. unfold ClearBuffer.
    match goal with |- bind ?m _ = _ -> _ => destruct m; simpl end;
      [now intros [= <-]|discriminate].
Qed.

Lemma status_is_cached_witness :
  match SetTopIndex 5 buf16 with
  | Some r => buffer_error_code (fst r) = snd r
  | None => False
  end /\
  match SetBottomIndex 5 buf16 with
  | Some r => buffer_error_code (fst r) = snd r
  | None => False
  end /\
  match Push "A"%byte buf16 with
  | Some s' => buffer_error_code s' = buffer_error_code buf16
  | None => False
  end /\
  match Pop buf16 with
  | Some r => buffer_error_code (snd r) = buffer_error_code buf16
  | None => False
  end /\
  match ResetBuffer buf16 with
  | Some s' => buffer_error_code s' = buffer_error_code buf16
  | None => False
  end /\
  match ClearBuffer buf16 with
  | Some s' => buffer_error_code s' = buffer_error_code buf16
  | None => False
  end.
Proof.
  destruct (status_is_cached buf16 5 32 None "A"%byte)
    as (_ & _ & HT & HB & _ & HPu & HPo & HR & HC).
  exact (conj (HT _ eq_refl) (conj (HB _ eq_refl) (conj (HPu _ eq_refl)
           (conj (HPo _ eq_refl) (conj (HR _ eq_refl) (HC _ eq_refl)))))).
Defined.

(** ** Shifting the borders *)

(** What an accepted [SetTopIndex] does, field by field and byte by byte. *)
Lemma SetTopIndex_in_range (s : CyclicBuffer) (index : Z) :
  mem_inv s ->
  bottom_index s <= index <= buffer_size s - 1 ->
  exists s',
    SetTopIndex index s = Some (s', BUFFER_OK) /\
    buffer_size s' = buffer_size s /\
    length (buffer s') = length (buffer s) /\
    top_index s' = index /\
    bottom_index s' = bottom_index s /\
    write_ptr s' = (if write_ptr s >? index then bottom_index s
                    else write_ptr s) /\
    read_ptr s' = (if read_ptr s >? index then bottom_index s
                   else read_ptr s) /\
    (forall j, top_index s < j <= index -> load (buffer s') j = Some NUL) /\
    (forall j, j <= top_index s \/ index < j ->
               load (buffer s') j = load (buffer s) j).
Proof.
  intros (Hsz & Hlen & Hb & Ht) Hidx. unfold SetTopIndex.
  rewrite u32_small by lia.
  destruct (Z.gtb_spec index (buffer_size s - 1)); [lia|].
  destruct (Z.ltb_spec index (bottom_index s)); [lia|].
  assert (Hloop : exists buf',
    (if top_index s <? index
     then zero_loop (Z.to_nat (index - top_index s))
            (fun i => i <=? index) (u32 (top_index s + 1)) (buffer s)
     else Some (buffer s)) = Some buf' /\
    length buf' = length (buffer s) /\
    (forall j, top_index s < j <= index -> load buf' j = Some NUL) /\
    (forall j, j <= top_index s \/ index < j ->
               load buf' j = load (buffer s) j)).
  { destruct (Z.ltb_spec (top_index s) index) as [Hgrow|Hshrink].
    - rewrite u32_small by lia.
      destruct (zero_loop_spec (Z.to_nat (index - top_index s))
                  (fun i => i <=? index) (top_index s + 1) (buffer s))
        as (buf' & Hz & Hl & Hzero & Hkeep).
      + intros j Hj. apply Z.leb_le. lia.
      + apply Z.leb_gt. lia.
      + lia.
      + lia.
      + lia.
      + exists buf'. repeat split; auto.
        * intros j Hj. apply Hzero. lia.
        * intros j Hj. apply Hkeep. lia.
    - exists (buffer s). repeat split; auto. intros j Hj. lia. }
  destruct Hloop as (buf' & -> & Hl & Hzero & Hkeep). simpl.
  eexists. split; [reflexivity|].
  destruct (write_ptr s >? index); simpl;
    destruct (read_ptr s >? index); simpl; repeat split; auto.
Qed.

(** What an accepted [SetBottomIndex] does. *)
Lemma SetBottomIndex_in_range (s : CyclicBuffer) (index : Z) :
  mem_inv s ->
  0 <= index <= top_index s ->
  exists s',
    SetBottomIndex index s = Some (s', BUFFER_OK) /\
    buffer_size s' = buffer_size s /\
    length (buffer s') = length (buffer s) /\
    top_index s' = top_index s /\
    bottom_index s' = index /\
    write_ptr s' = (if write_ptr s <? index then index else write_ptr s) /\
    read_ptr s' = (if read_ptr s <? index then index else read_ptr s) /\
    (forall j, index <= j < bottom_index s -> load (buffer s') j = Some NUL) /\
    (forall j, j < index \/ bottom_index s <= j ->
               load (buffer s') j = load (buffer s) j).
Proof.
  intros (Hsz & Hlen & Hb & Ht) Hidx. unfold SetBottomIndex.
  rewrite u32_small by lia.
  destruct (Z.gtb_spec index (buffer_size s - 1)); [lia|].
  destruct (Z.gtb_spec index (top_index s)); [lia|].
  assert (Hloop : exists buf',
    (if index <? bottom_index s
     then zero_loop (Z.to_nat (bottom_index s - index))
            (fun i => i <=? u32 (bottom_index s - 1)) index (buffer s)
     else Some (buffer s)) = Some buf' /\
    length buf' = length (buffer s) /\
    (forall j, index <= j < bottom_index s -> load buf' j = Some NUL) /\
    (forall j, j < index \/ bottom_index s <= j ->
               load buf' j = load (buffer s) j)).
  { destruct (Z.ltb_spec index (bottom_index s)) as [Hgrow|Hshrink].
    - rewrite u32_small by lia.
      destruct (zero_loop_spec (Z.to_nat (bottom_index s - index))
                  (fun i => i <=? bottom_index s - 1) index (buffer s))
        as (buf' & Hz & Hl & Hzero & Hkeep).
      + intros j Hj. apply Z.leb_le. lia.
      + apply Z.leb_gt. lia.
      + lia.
      + lia.
      + lia.
      + exists buf'. repeat split; auto.
        * intros j Hj. apply Hzero. lia.
        * intros j Hj. apply Hkeep. lia.
    - exists (buffer s). repeat split; auto. intros j Hj. lia. }
  destruct Hloop as (buf' & -> & Hl & Hzero & Hkeep). simpl.
  eexists. split; [reflexivity|].
  destruct (write_ptr s <? index); simpl;
    destruct (read_ptr s <? index); simpl; repeat split; auto.
Qed.

(** With the write cursor at 12, [SetTopIndex(10)] succeeds and the cursor
    lands on the bottom border 0, not on the new top border 10. *)
Lemma SetTopIndex_cursor_not_to_top :
  exists s',
    SetTopIndex 10 buf16_push12 = Some (s', BUFFER_OK) /\
    write_ptr buf16_push12 > 10 /\
    top_index s' = 10 /\
    write_ptr s' = 0 /\
    write_ptr s' <> top_index s'.
Proof.
  eexists. split; [reflexivity|]. simpl. repeat split; lia.
Qed.

(** C5, as the code has it: a border shift that stays inside the block and
    does not cross the other border succeeds; after [SetTopIndex] a cursor
    above the new top border is at the bottom border, after
    [SetBottomIndex] a cursor below the new bottom border is at the new
    bottom border, and a cursor inside the new window has not moved. *)
Theorem border_shift_relocates_cursors (s : CyclicBuffer) (index : Z) :
  mem_inv s ->
  (bottom_index s <= index <= buffer_size s - 1 ->
   exists s',
     SetTopIndex index s = Some (s', BUFFER_OK) /\
     top_index s' = index /\
     bottom_index s' = bottom_index s /\
     write_ptr s' = (if write_ptr s >? index then bottom_index s
                     else write_ptr s) /\
     read_ptr s' = (if read_ptr s >? index then bottom_index s
                    else read_ptr s)) /\
  (0 <= index <= top_index s ->
   exists s',
     SetBottomIndex index s = Some (s', BUFFER_OK) /\
     top_index s' = top_index s /\
     bottom_index s' = index /\
     write_ptr s' = (if write_ptr s <? index then index else write_ptr s) /\
     read_ptr s' = (if read_ptr s <? index then index else read_ptr s)).
Proof.
  intros Hm. split; intros Hidx.
  - destruct (SetTopIndex_in_range s index Hm Hidx)
      as (s' & E & _ & _ & Ht & Hb & Hw & Hr & _).
    exists s'. auto.
  - destruct (SetBottomIndex_in_range s index Hm Hidx)
      as (s' & E & _ & _ & Ht & Hb & Hw & Hr & _).
    exists s'. auto.
Qed.

Lemma border_shift_relocates_cursors_witness :
  mem_inv buf16_bottom5_push12 /\
  (exists s',
     SetTopIndex 10 buf16_bottom5_push12 = Some (s', BUFFER_OK) /\
     top_index s' = 10 /\
     bottom_index s' = 5 /\
     write_ptr s' = 5 /\
     read_ptr s' = 5) /\
  (exists s',
     SetBottomIndex 8 buf16_bottom5_push12 = Some (s', BUFFER_OK) /\
     top_index s' = 15 /\
     bottom_index s' = 8 /\
     write_ptr s' = 12 /\
     read_ptr s' = 8).
Proof.
  pose proof (proj1 wf_buf16_bottom5_push12) as Hm.
  split; [exact Hm|]. split.
  - apply (proj1 (border_shift_relocates_cursors buf16_bottom5_push12 10 Hm)).
    simpl. lia.
  - apply (proj2 (border_shift_relocates_cursors buf16_bottom5_push12 8 Hm)).
    simpl. lia.
Defined.

(** ** First in, first out *)

Lemma GetBufferSize_window (s : CyclicBuffer) :
  mem_inv s -> GetBufferSize s = top_index s - bottom_index s + 1.
Proof.
  intros (Hsz & Hlen & Hb & Ht). unfold GetBufferSize.
  rewrite (u32_small (top_index s - bottom_index s)) by lia.
  apply u32_small. lia.
Qed.

Lemma unread_set_read (s : CyclicBuffer) (i r : Z) (l : list byte) :
  unread s r l -> unread (set_read i s) r l.
Proof.
  induction 1 as [|r x l Hne Hwin Hld _ IH].
  - apply (unread_nil (set_read i s)).
  - apply unread_cons; auto.
Qed.

(** The unread bytes are as many as the steps from the start to the write
    cursor. *)
Lemma unread_length (s : CyclicBuffer) (r : Z) (l : list byte) :
  bottom_index s <= write_ptr s <= top_index s ->
  unread s r l ->
  Z.of_nat (length l) = dist s r (write_ptr s).
Proof.
  intros Hw. induction 1 as [|r x l Hne Hwin Hld _ IH].
  - unfold dist. rewrite Z.leb_refl. simpl. lia.
  - simpl length. rewrite Nat2Z.inj_succ, IH.
    unfold dist, next. cases; lia.
Qed.

Lemma Pop_unread (s : CyclicBuffer) (x : byte) (l : list byte) :
  mem_inv s ->
  unread s (read_ptr s) (x :: l) ->
  Pop s = Some (x, set_read (next s (read_ptr s)) s) /\
  unread (set_read (next s (read_ptr s)) s) (next s (read_ptr s)) l.
Proof.
  intros (Hsz & Hlen & Hb & Ht) H.
  inversion H as [|r x' l' Hne Hwin Hld Hrest]; subst.
  split; [|now apply unread_set_read].
  unfold Pop, next.
  destruct (Z.eqb_spec (read_ptr s) (write_ptr s)); [contradiction|].
  destruct (Z.eqb_spec (read_ptr s) (top_index s)) as [E|E].
  - simpl. rewrite <- E, Hld. reflexivity.
  - rewrite Hld. simpl. rewrite u32_small by lia. reflexivity.
Qed.

(** Reading as many bytes as are unread returns them in order. *)
Lemma Pop_n_unread (l : list byte) :
  forall s,
    mem_inv s ->
    unread s (read_ptr s) l ->
    exists s', Pop_n (length l) s = Some (l, s').
Proof.
  induction l as [|x l IH]; intros s Hm Hu.
  - exists s. reflexivity.
  - destruct (Pop_unread s x l Hm Hu) as [HPop Hrest].
    destruct (IH (set_read (next s (read_ptr s)) s)) as (s' & Hn).
    + exact Hm.
    + exact Hrest.
    + exists s'. simpl Pop_n. rewrite HPop. simpl. rewrite Hn. reflexivity.
Qed.

(** The object [Push] leaves behind when the write cursor is in the window. *)
Lemma Push_in_window (s : CyclicBuffer) (ch : byte) :
  mem_inv s ->
  bottom_index s <= write_ptr s <= top_index s ->
  Push ch s
  = Some (set_write (next s (write_ptr s))
            (set_buffer (upd (buffer s) (Z.to_nat (write_ptr s)) ch) s)).
Proof.
  intros (Hsz & Hlen & Hb & Ht) Hw. unfold Push.
  rewrite store_in_range by lia. simpl.
  rewrite u32_small by lia. unfold next.
  destruct (Z.gtb_spec (write_ptr s + 1) (top_index s));
    destruct (Z.eqb_spec (write_ptr s) (top_index s)); try lia; reflexivity.
Qed.

(** A write appends to the unread bytes, as long as the write cursor does
    not catch up with the start. *)
Lemma Push_unread (s : CyclicBuffer) (ch : byte) (r : Z) (l : list byte) :
  mem_inv s ->
  bottom_index s <= write_ptr s <= top_index s ->
  unread s r l ->
  bottom_index s <= r <= top_index s ->
  dist s r (write_ptr s) + 1 < top_index s - bottom_index s + 1 ->
  unread (set_write (next s (write_ptr s))
            (set_buffer (upd (buffer s) (Z.to_nat (write_ptr s)) ch) s))
    r (l ++ [ch]).
Proof.
  intros (Hsz & Hlen & Hb & Ht) Hw Hu.
  set (s' := set_write (next s (write_ptr s))
               (set_buffer (upd (buffer s) (Z.to_nat (write_ptr s)) ch) s)).
  assert (Hst : store (buffer s) (write_ptr s) ch = Some (buffer s'))
    by (apply store_in_range; lia).
  assert (Hnext : forall i, next s' i = next s i) by reflexivity.
  assert (Hw' : write_ptr s' = next s (write_ptr s)) by reflexivity.
  induction Hu as [|r x l Hne Hwin Hld _ IH]; intros Hr Hd.
  - simpl. apply unread_cons.
    + rewrite Hw'. revert Hd. unfold dist, next. cases; lia.
    + exact Hw.
    + eapply load_store_same; eauto.
    + rewrite Hnext, <- Hw'. apply unread_nil.
  - simpl. apply unread_cons.
    + rewrite Hw'. revert Hd. unfold dist, next. cases; lia.
    + exact Hwin.
    + rewrite <- Hld. eapply load_store_other; eauto.
    + rewrite Hnext. apply IH.
      * unfold next. cases; lia.
      * revert Hd. unfold dist, next. cases; lia.
Qed.

(** Writing [l2] after the unread bytes [l] leaves [l ++ l2] unread, when
    all of them together are fewer than the window has bytes. *)
Lemma Push_all_unread (l2 : list byte) :
  forall s l,
    wf s ->
    unread s (read_ptr s) l ->
    Z.of_nat (length l) + Z.of_nat (length l2)
      < top_index s - bottom_index s + 1 ->
    exists s',
      Push_all l2 s = Some s' /\ wf s' /\
      unread s' (read_ptr s') (l ++ l2).
Proof.
  induction l2 as [|c l2 IH]; intros s l Hwf Hu Hlen.
  - exists s. rewrite app_nil_r. auto.
  - destruct Hwf as [Hm [Hw Hr]].
    pose proof (unread_length s _ l Hw Hu) as Hd.
    pose proof (Push_in_window s c Hm Hw) as HPush.
    assert (Hu' := Push_unread s c _ l Hm Hw Hu Hr).
    set (s1 := set_write (next s (write_ptr s))
                 (set_buffer (upd (buffer s) (Z.to_nat (write_ptr s)) c) s))
      in *.
    simpl length in Hlen.
    destruct (IH s1 (l ++ [c])) as (s' & HP & Hwf' & Hu'').
    + destruct Hm as (Hsz & Hl & Hb & Ht).
      unfold wf, mem_inv, cursor_inv, s1. simpl. rewrite length_upd.
      unfold next. cases; lia.
    + apply Hu'. lia.
    + rewrite length_app. simpl. lia.
    + exists s'. simpl Push_all. rewrite HPush. simpl.
      rewrite <- app_assoc in Hu''. auto.
Qed.

(** With a window of four bytes, four writes bring the write cursor back
    to the read cursor, and the four reads return the zero byte each. *)
Lemma four_writes_four_reads_lost :
  wf buf4 /\
  read_ptr buf4 = write_ptr buf4 /\
  Z.of_nat (length ["A"; "B"; "C"; "D"]%byte) <= GetBufferSize buf4 /\
  exists s' s'',
    Push_all ["A"; "B"; "C"; "D"]%byte buf4 = Some s' /\
    Pop_n 4 s' = Some ([NUL; NUL; NUL; NUL], s'') /\
    [NUL; NUL; NUL; NUL] <> ["A"; "B"; "C"; "D"]%byte.
Proof.
  split; [exact wf_buf4|]. split; [reflexivity|]. split; [vm_compute; discriminate|].
  do 2 eexists. split; [reflexivity|]. split; [reflexivity|]. discriminate.
Qed.

(** C1, as the code has it: from equal cursors inside the window, writing
    fewer bytes than the window has and then reading as many returns the
    written bytes in the order they were written. *)
Theorem Push_then_Pop_fifo (s : CyclicBuffer) (l : list byte) :
  wf s ->
  read_ptr s = write_ptr s ->
  Z.of_nat (length l) < GetBufferSize s ->
  exists s' s'',
    Push_all l s = Some s' /\
    Pop_n (length l) s' = Some (l, s'').
Proof.
  intros Hwf Heq Hlen.
  rewrite GetBufferSize_window in Hlen by apply Hwf.
  destruct (Push_all_unread l s [] Hwf) as (s' & HP & Hwf' & Hu).
  - rewrite Heq. apply unread_nil.
  - simpl. lia.
  - destruct (Pop_n_unread l s' (proj1 Hwf') Hu) as (s'' & Hn).
    exists s', s''. auto.
Qed.

Lemma Push_then_Pop_fifo_witness :
  wf buf16 /\
  read_ptr buf16 = write_ptr buf16 /\
  exists s' s'',
    Push_all ["A"; "B"; "C"; "D"]%byte buf16 = Some s' /\
    Pop_n 4 s' = Some (["A"; "B"; "C"; "D"]%byte, s'').
Proof.
  split; [exact wf_buf16|]. split; [reflexivity|].
  apply (Push_then_Pop_fifo buf16 ["A"; "B"; "C"; "D"]%byte wf_buf16).
  - reflexivity.
  - vm_compute. reflexivity.
Defined.

(** ** Construction *)

(** [ClearBuffer] zeroes the window but for its last byte. *)
Lemma ClearBuffer_spec (s : CyclicBuffer) :
  mem_inv s ->
  exists buf',
    ClearBuffer s = Some (set_buffer buf' s) /\
    length buf' = length (buffer s) /\
    (forall j, bottom_index s <= j < top_index s -> load buf' j = Some NUL) /\
    (forall j, j < bottom_index s \/ top_index s <= j ->
               load buf' j = load (buffer s) j).
Proof.
  intros (Hsz & Hlen & Hb & Ht). unfold ClearBuffer.
  destruct (zero_loop_spec (Z.to_nat (top_index s - bottom_index s))
              (fun i => i <? top_index s) (bottom_index s) (buffer s))
    as (buf' & Hz & Hl & Hzero & Hkeep).
  - intros j Hj. apply Z.ltb_lt. lia.
  - apply Z.ltb_ge. lia.
  - lia.
  - lia.
  - lia.
  - exists buf'. rewrite Hz. simpl. repeat split; auto.
    + intros j Hj. apply Hzero. lia.
    + intros j Hj. apply Hkeep. lia.
Qed.


(** C3 at a block of four bytes ['a' 'b' 'c' 'd']: construction sets the
    borders to 0 and 3 and both cursors to 0, zeroes the bytes 0 to 2, and
    leaves ['d'] at index 3, the top border. *)
Theorem ctor_leaves_top_byte :
  CyclicBuffer_ctor 4 (Some fresh4) = Some (Constructed buf4) /\
  bottom_index buf4 = 0 /\
  top_index buf4 = 4 - 1 /\
  write_ptr buf4 = 0 /\
  read_ptr buf4 = 0 /\
  buffer buf4 = [NUL; NUL; NUL; "d"%byte] /\
  load (buffer buf4) (top_index buf4) <> Some NUL.
Proof.
  repeat split. simpl. discriminate.
Qed.

(** ** The invariant, operation by operation *)

Lemma Push_wf (s : CyclicBuffer) (ch : byte) :
  wf s -> exists s', Push ch s = Some s' /\ wf s'.
Proof.
  intros Hwf. eexists. split.
  - apply Push_in_window; apply Hwf.
  - unfold next. wf_arith.
Qed.

Lemma Pop_wf (s : CyclicBuffer) :
  wf s -> exists b s', Pop s = Some (b, s') /\ wf s'.
Proof.
  intros Hwf. unfold Pop.
  destruct (Z.eqb_spec (read_ptr s) (write_ptr s)).
  - eauto.
  - destruct (Z.eqb_spec (read_ptr s) (top_index s)).
    + destruct (load_in_range (buffer s) (top_index s)) as [b Hb];
        [wf_arith|].
      simpl. rewrite Hb. simpl. do 2 eexists. split; [reflexivity|]. wf_arith.
    + destruct (load_in_range (buffer s) (read_ptr s)) as [b Hb];
        [wf_arith|].
      rewrite Hb. simpl. do 2 eexists. split; [reflexivity|].
      rewrite u32_small by wf_arith. wf_arith.
Qed.

Lemma SetPopIndex_wf (s : CyclicBuffer) (index : Z) :
  wf s -> wf (fst (SetPopIndex index s)).
Proof.
  intros Hwf. unfold SetPopIndex.
  destruct (Z.gtb_spec index (top_index s)); [exact Hwf|].
  destruct (Z.ltb_spec index (bottom_index s)); [exact Hwf|].
  wf_arith.
Qed.

Lemma SetPushIndex_wf (s : CyclicBuffer) (index : Z) :
  wf s -> wf (fst (SetPushIndex index s)).
Proof.
  intros Hwf. unfold SetPushIndex.
  destruct (Z.gtb_spec index (top_index s)); [exact Hwf|].
  destruct (Z.ltb_spec index (bottom_index s)); [exact Hwf|].
  wf_arith.
Qed.

Lemma SetTopIndex_wf (s : CyclicBuffer) (index : Z) :
  wf s -> exists r, SetTopIndex index s = Some r /\ wf (fst r).
Proof.
  intros Hwf.
  destruct (Z_le_gt_dec index (buffer_size s - 1)) as [Hle|Hgt].
  - destruct (Z_le_gt_dec (bottom_index s) index) as [Hbi|Hlow].
    + destruct (SetTopIndex_in_range s index (proj1 Hwf) (conj Hbi Hle))
        as (s' & E & Hsz & Hl & Ht & Hb & Hw & Hr & _).
      exists (s', BUFFER_OK). split; [exact E|]. simpl.
      unfold wf, mem_inv, cursor_inv in *.
      rewrite Hsz, Hl, Ht, Hb, Hw, Hr. cases; lia.
    + unfold SetTopIndex. rewrite u32_small by wf_arith.
      destruct (Z.gtb_spec index (buffer_size s - 1)); [lia|].
      destruct (Z.ltb_spec index (bottom_index s)); [|lia].
      eexists. split; [reflexivity|]. exact Hwf.
  - unfold SetTopIndex. rewrite u32_small by wf_arith.
    destruct (Z.gtb_spec index (buffer_size s - 1)); [|lia].
    eexists. split; [reflexivity|]. exact Hwf.
Qed.

Lemma SetBottomIndex_wf (s : CyclicBuffer) (index : Z) :
  wf s -> 0 <= index -> exists r, SetBottomIndex index s = Some r /\ wf (fst r).
Proof.
  intros Hwf H0.
  destruct (Z_le_gt_dec index (top_index s)) as [Hle|Hgt].
  - destruct (SetBottomIndex_in_range s index (proj1 Hwf) (conj H0 Hle))
      as (s' & E & Hsz & Hl & Ht & Hb & Hw & Hr & _).
    exists (s', BUFFER_OK). split; [exact E|]. simpl.
    unfold wf, mem_inv, cursor_inv in *.
    rewrite Hsz, Hl, Ht, Hb, Hw, Hr. cases; lia.
  - unfold SetBottomIndex. rewrite u32_small by wf_arith.
    destruct (Z.gtb_spec index (buffer_size s - 1)).
    + eexists. split; [reflexivity|]. exact Hwf.
    + destruct (Z.gtb_spec index (top_index s)); [|lia].
      eexists. split; [reflexivity|]. exact Hwf.
Qed.

Lemma ClearBuffer_wf (s : CyclicBuffer) :
  wf s -> exists s', ClearBuffer s = Some s' /\ wf s'.
Proof.
  intros Hwf.
  destruct (ClearBuffer_spec s (proj1 Hwf)) as (buf' & E & Hl & _).
  eexists. split; [exact E|].
  unfold wf, mem_inv, cursor_inv in *. simpl. rewrite Hl. exact Hwf.
Qed.

Lemma ResetBuffer_wf (s : CyclicBuffer) :
  mem_inv s -> exists s', ResetBuffer s = Some s' /\ wf s'.
Proof.
  intros (Hsz & Hlen & Hb & Ht). unfold ResetBuffer. simpl.
  rewrite u32_small by lia.
  destruct (zero_loop_spec (Z.to_nat (buffer_size s - 1 + 1))
              (fun i => i <=? buffer_size s - 1) 0 (buffer s))
    as (buf' & Hz & Hl & _).
  - intros j Hj. apply Z.leb_le. lia.
  - apply Z.leb_gt. lia.
  - lia.
  - lia.
  - lia.
  - rewrite Hz. simpl. eexists. split; [reflexivity|].
    unfold wf, mem_inv, cursor_inv. simpl. rewrite Hl. lia.
Qed.

Lemma SetValueAt_wf (s : CyclicBuffer) (index : Z) (v : byte) (uo lo : bool) :
  wf s -> 0 <= index ->
  exists r, SetValueAt index v uo lo s = Some r /\ wf (fst r).
Proof.
  intros Hwf H0. rewrite SetValueAt_unfold.
  destruct (rejected (translate index uo s) lo s) eqn:R.
  - eexists. split; [reflexivity|]. exact Hwf.
  - apply orb_false_iff in R as [R _].
    rewrite Z.geb_leb in R. apply Z.leb_gt in R.
    assert (0 <= translate index uo s).
    { unfold translate, u32. destruct uo; [|lia].
      apply Z.mod_pos_bound. lia. }
    rewrite store_in_range by wf_arith. simpl.
    eexists. split; [reflexivity|]. wf_arith.
Qed.

(** [ReallocBuffer] keeps the block, the borders and the read cursor in
    order; the write cursor is either inside the window or at index 0. *)
Lemma ReallocBuffer_partial_wf
    (s : CyclicBuffer) (size : Z) (outcome : option (list byte)) :
  wf s ->
  1 <= size <= UINT_MAX ->
  (forall fresh, outcome = Some fresh ->
                 size <= Z.of_nat (length (buffer s) + length fresh)) ->
  let s' := fst (ReallocBuffer size outcome s) in
  mem_inv s' /\
  bottom_index s' <= read_ptr s' <= top_index s' /\
  (bottom_index s' <= write_ptr s' <= top_index s' \/ write_ptr s' = 0).
Proof.
  intros Hwf Hsize Hfresh. unfold ReallocBuffer.
  destruct (Z.eqb_spec size 0); [lia|].
  destruct (Z.eqb_spec size (buffer_size s)).
  - simpl. unfold wf, mem_inv, cursor_inv in *. simpl. lia.
  - destruct outcome as [fresh|]; simpl.
    + specialize (Hfresh fresh eq_refl).
      rewrite u32_small by lia.
      assert (Hl : Z.of_nat (length (firstn (Z.to_nat size) (buffer s ++ fresh)))
                   = size).
      { rewrite length_firstn, length_app. lia. }
      unfold wf, mem_inv, cursor_inv in *.
      destruct (top_index s >? size - 1) eqn:E1; simpl;
        destruct (bottom_index s >? size - 1) eqn:E2; simpl;
        destruct (read_ptr s >? size - 1) eqn:E3; simpl;
        destruct (write_ptr s >? size - 1) eqn:E4; simpl;
        rewrite Hl; lia.
    + unfold wf, mem_inv, cursor_inv in *. simpl. lia.
Qed.

(** C2 at a buffer of 16 bytes with the bottom border at 5 and the write
    cursor at 12: [ReallocBuffer(8)] returns [BUFFER_OK] and leaves the
    write cursor at 0, below the bottom border 5. *)
Theorem ReallocBuffer_write_ptr_below_bottom :
  wf buf16_bottom5_push12 /\
  let r := ReallocBuffer 8 (Some []) buf16_bottom5_push12 in
  snd r = BUFFER_OK /\
  buffer_size (fst r) = 8 /\
  bottom_index (fst r) = 5 /\
  top_index (fst r) = 7 /\
  read_ptr (fst r) = 5 /\
  write_ptr (fst r) = 0 /\
  ~ cursor_inv (fst r).
Proof.
  split; [exact wf_buf16_bottom5_push12|].
  simpl. repeat split. unfold cursor_inv. simpl. lia.
Qed.

(** ** The offset translation wraps *)

(** In every object of at most [2^31] bytes whose bottom border is above
    0, the index [2^32 - bottom_index] is not below the capacity and is
    translated to 0. *)
Lemma translate_wraps_to_zero (s : CyclicBuffer) :
  mem_inv s ->
  buffer_size s <= 2147483648 ->
  0 < bottom_index s ->
  buffer_size s <= 4294967296 - bottom_index s <= UINT_MAX /\
  translate (4294967296 - bottom_index s) true s = 0.
Proof.
  intros (Hsz & Hlen & Hb & Ht) Hhalf Hpos.
  unfold translate, u32, UINT_MAX in *.
  split; [lia|].
  replace (4294967296 - bottom_index s + bottom_index s)
    with (1 * 4294967296) by lia.
  apply Z.mod_mul. lia.
Qed.

(** C10: with [use_offset] the translated index is
    [index + bottom_index] modulo [2^32]; and in the buffer of 16 bytes
    with the bottom border at 5 and ['Z'] stored at index 0, the index
    [4294967291], far above the capacity, is translated to 0, so that with
    [look_outside_borders] a read returns the stored ['Z'] and a write
    stores its value at index 0 and returns [BUFFER_OK]. *)
Theorem offset_translation_wraps :
  (forall s index,
      translate index true s = (index + bottom_index s) mod 2 ^ 32) /\
  exists s index,
    wf s /\
    0 < bottom_index s /\
    buffer_size s <= index <= UINT_MAX /\
    UINT_MAX < index + bottom_index s /\
    0 <= translate index true s < buffer_size s /\
    (exists b,
        GetValueAt index true true s = Some b /\
        load (buffer s) (translate index true s) = Some b /\
        b <> NUL) /\
    (forall v, exists s',
        SetValueAt index v true true s = Some (s', BUFFER_OK) /\
        load (buffer s') (translate index true s) = Some v).
Proof.
  split; [reflexivity|].
  exists buf16_bottom5_Z, 4294967291.
  split; [exact wf_buf16_bottom5_Z|].
  unfold UINT_MAX. repeat split; try (vm_compute; congruence).
  - exists "Z"%byte. repeat split; discriminate.
  - intros v. eexists. split; vm_compute; reflexivity.
Qed.

(** * Further properties of the member functions *)

(** ** [Push] and [Pop] interleaved *)

Lemma unread_nil_inv (s : CyclicBuffer) (r : Z) :
  unread s r [] -> r = write_ptr s.
Proof.
  intros H. inversion H. reflexivity.
Qed.

Lemma Push_step_wf (s : CyclicBuffer) (ch : byte) :
  wf s ->
  wf (set_write (next s (write_ptr s))
        (set_buffer (upd (buffer s) (Z.to_nat (write_ptr s)) ch) s)).
Proof.
  intros Hwf. unfold next. wf_arith.
Qed.

Lemma Pop_step_wf (s : CyclicBuffer) :
  wf s -> wf (set_read (next s (read_ptr s)) s).
Proof.
  intros Hwf. unfold next. wf_arith.
Qed.

(** X1: any interleaving of [Push] and [Pop] calls returns what a first-in
    first-out queue returns, as long as the queue holds fewer bytes than
    the window has; popping the empty queue gives the zero byte. *)
Theorem run_refines_queue (cs : list call) :
  forall (s : CyclicBuffer) (q out : list byte),
    wf s ->
    unread s (read_ptr s) q ->
    queue_run (GetBufferSize s) cs q = Some out ->
    exists s', run cs s = Some (out, s') /\ wf s'.
Proof.
  induction cs as [|[ch|] rest IH]; intros s q out Hwf Hu Hq.
  - injection Hq as <-. exists s. auto.
  - simpl in Hq.
    destruct (Z.ltb_spec (Z.of_nat (length q) + 1) (GetBufferSize s))
      as [Hroom|]; [|discriminate].
    rewrite GetBufferSize_window in Hroom by apply Hwf.
    destruct Hwf as [Hm [Hw Hr]].
    pose proof (unread_length s _ q Hw Hu) as Hd.
    pose proof (Push_in_window s ch Hm Hw) as HPush.
    assert (Hu' := Push_unread s ch _ q Hm Hw Hu Hr).
    assert (Hwf' := Push_step_wf s ch (conj Hm (conj Hw Hr))).
    destruct (IH _ (q ++ [ch]) out Hwf') as (s' & Hrun & Hwf'').
    + apply Hu'. lia.
    + exact Hq.
    + exists s'. simpl run. rewrite HPush. simpl. auto.
  - destruct q as [|x q'].
    + simpl in Hq.
      destruct (queue_run (GetBufferSize s) rest []) as [out'|] eqn:Hrest;
        [|discriminate].
      injection Hq as <-.
      destruct (IH s [] out' Hwf Hu Hrest) as (s' & Hrun & Hwf').
      exists s'. simpl run. unfold Pop.
      rewrite (unread_nil_inv _ _ Hu), Z.eqb_refl. simpl.
      rewrite Hrun. simpl. auto.
    + simpl in Hq.
      destruct (queue_run (GetBufferSize s) rest q') as [out'|] eqn:Hrest;
        [|discriminate].
      injection Hq as <-.
      destruct (Pop_unread s x q' (proj1 Hwf) Hu) as [HPop Hu'].
      destruct (IH _ q' out' (Pop_step_wf s Hwf) Hu' Hrest)
        as (s' & Hrun & Hwf').
      exists s'. simpl run. rewrite HPop. simpl. rewrite Hrun. simpl. auto.
Qed.

Lemma run_refines_queue_witness :
  wf buf16 /\
  unread buf16 (read_ptr buf16) [] /\
  exists s',
    run [CallPush "A"; CallPush "B"; CallPop; CallPush "C"; CallPop;
         CallPop; CallPop]%byte buf16
      = Some (["A"; "B"; "C"; NUL]%byte, s') /\ wf s'.
Proof.
  split; [exact wf_buf16|]. split; [apply (unread_nil buf16)|].
  apply (run_refines_queue _ buf16 [] _ wf_buf16 (unread_nil buf16)).
  reflexivity.
Defined.

(** ** Reading more than was written *)

Lemma Pop_n_empty (k : nat) (s : CyclicBuffer) :
  read_ptr s = write_ptr s -> Pop_n k s = Some (repeat NUL k, s).
Proof.
  intros Heq. induction k as [|k IH]; [reflexivity|].
  simpl. unfold Pop at 1. rewrite Heq, Z.eqb_refl. simpl.
  rewrite IH. reflexivity.
Qed.

(** X2: reading [k] bytes more than are unread returns the unread bytes in
    order and then [k] zero bytes, and the read cursor stops at the write
    cursor. *)
Theorem Pop_n_past_the_end (l : list byte) (k : nat) :
  forall s,
    mem_inv s ->
    unread s (read_ptr s) l ->
    exists s',
      Pop_n (length l + k) s = Some (l ++ repeat NUL k, s') /\
      read_ptr s' = write_ptr s /\
      s' = set_read (write_ptr s) s.
Proof.
  induction l as [|x l IH]; intros s Hm Hu.
  - exists s. simpl. pose proof (unread_nil_inv _ _ Hu) as E.
    rewrite Pop_n_empty by exact E.
    repeat split; auto. rewrite <- E. destruct s; reflexivity.
  - destruct (Pop_unread s x l Hm Hu) as [HPop Hrest].
    destruct (IH (set_read (next s (read_ptr s)) s) Hm Hrest)
      as (s' & Hn & Hr & Hs).
    exists s'. simpl Pop_n. rewrite HPop. simpl. rewrite Hn.
    repeat split; auto.
Qed.

Lemma Pop_n_past_the_end_witness :
  mem_inv buf16_ABCD /\
  unread buf16_ABCD (read_ptr buf16_ABCD) ["A"; "B"; "C"; "D"]%byte /\
  exists s',
    Pop_n (4 + 1) buf16_ABCD = Some (["A"; "B"; "C"; "D"; NUL]%byte, s') /\
    read_ptr s' = write_ptr buf16_ABCD /\
    s' = set_read (write_ptr buf16_ABCD) buf16_ABCD.
Proof.
  assert (Hm : mem_inv buf16_ABCD)
    by (unfold mem_inv, UINT_MAX; simpl; lia).
  assert (Hu : unread buf16_ABCD (read_ptr buf16_ABCD)
                 ["A"; "B"; "C"; "D"]%byte).
  { repeat (apply unread_cons;
            [vm_compute; discriminate | vm_compute; split; discriminate
            | reflexivity | ]).
    apply (unread_nil buf16_ABCD). }
  split; [exact Hm|]. split; [exact Hu|].
  apply (Pop_n_past_the_end ["A"; "B"; "C"; "D"]%byte 1 buf16_ABCD Hm Hu).
Defined.

(** ** Writing around the window *)

Lemma mod_window (n x : Z) :
  0 < n -> - n <= x < n -> x mod n = if x <? 0 then x + n else x.
Proof.
  intros Hn Hx. destruct (Z.ltb_spec x 0).
  - rewrite <- (Z_mod_plus_full x 1 n). rewrite Z.mul_1_l.
    apply Z.mod_small. lia.
  - apply Z.mod_small. lia.
Qed.

Lemma Push_all_app (l1 l2 : list byte) :
  forall s, Push_all (l1 ++ l2) s = (s1 <- Push_all l1 s ;; Push_all l2 s1).
Proof.
  induction l1 as [|c l1 IH]; intros s; simpl; [reflexivity|].
  destruct (Push c s); simpl; auto.
Qed.

(** What any number of writes leaves as it was, and where they leave the
    write cursor. *)
Lemma Push_all_frame (l : list byte) :
  forall s,
    wf s ->
    exists s',
      Push_all l s = Some s' /\ wf s' /\
      buffer_error_code s' = buffer_error_code s /\
      buffer_size s' = buffer_size s /\
      top_index s' = top_index s /\
      bottom_index s' = bottom_index s /\
      read_ptr s' = read_ptr s /\
      write_ptr s'
      = bottom_index s
        + (write_ptr s - bottom_index s + Z.of_nat (length l))
            mod (top_index s - bottom_index s + 1) /\
      (forall j, j < bottom_index s \/ top_index s < j ->
                 load (buffer s') j = load (buffer s) j).
Proof.
  induction l as [|c l IH]; intros s Hwf.
  - exists s. repeat split; auto; try apply Hwf.
    simpl. rewrite Z.add_0_r, Z.mod_small; [lia|].
    destruct Hwf as [(_ & _ & Hb & _) [Hw _]]. lia.
  - pose proof (Push_step_wf s c Hwf) as Hwf1.
    destruct (IH _ Hwf1) as (s' & HP & Hwf' & He & Hs & Ht & Hb & Hr & Hw & Hk).
    destruct Hwf as [Hm [Hcw Hcr]].
    exists s'. simpl Push_all. rewrite (Push_in_window s c Hm Hcw). simpl.
    simpl in He, Hs, Ht, Hb, Hr, Hw, Hk.
    repeat split; auto; try apply Hwf'.
    + rewrite Hw. f_equal. unfold next.
      destruct Hm as (_ & _ & Hbt & _).
      destruct (Z.eqb_spec (write_ptr s) (top_index s)) as [E|E].
      * rewrite <- (Z_mod_plus_full
                      (bottom_index s - bottom_index s + Z.of_nat (length l))
                      1 (top_index s - bottom_index s + 1)).
        f_equal. rewrite E. simpl length. lia.
      * f_equal. simpl length. lia.
    + intros j Hj. rewrite Hk by exact Hj.
      apply (load_store_other (buffer s) _ (write_ptr s) j c).
      * destruct Hm as (_ & Hl & Hbt & Htt). apply store_in_range. lia.
      * lia.
Qed.

(** X3: after any number of writes the write cursor is the old one advanced
    by that number modulo the size of the window; the borders, the read
    cursor, the block size and the cached code are as before. *)
Theorem Push_all_write_cursor (s : CyclicBuffer) (l : list byte) :
  wf s ->
  exists s',
    Push_all l s = Some s' /\
    GetPushIndex s'
    = bottom_index s
      + (GetPushIndex s - bottom_index s + Z.of_nat (length l))
          mod GetBufferSize s /\
    GetPopIndex s' = GetPopIndex s /\
    GetBottomIndex s' = GetBottomIndex s /\
    GetTopIndex s' = GetTopIndex s /\
    GetTotalBufferSize s' = GetTotalBufferSize s /\
    buffer_error_code s' = buffer_error_code s.
Proof.
  intros Hwf.
  destruct (Push_all_frame l s Hwf)
    as (s' & HP & _ & He & Hs & Ht & Hb & Hr & Hw & _).
  exists s'. rewrite GetBufferSize_window by apply Hwf.
  unfold GetPushIndex, GetPopIndex, GetBottomIndex, GetTopIndex,
    GetTotalBufferSize. auto 10.
Qed.

Lemma Push_all_write_cursor_witness :
  wf buf4 /\
  exists s',
    Push_all ["A"; "B"; "C"; "D"; "E"; "F"]%byte buf4 = Some s' /\
    GetPushIndex s' = 0 + (0 - 0 + 6) mod 4 /\
    GetPopIndex s' = 0 /\
    GetBottomIndex s' = 0 /\
    GetTopIndex s' = 3 /\
    GetTotalBufferSize s' = 4 /\
    buffer_error_code s' = BUFFER_UNDEFINED_ERROR.
Proof.
  split; [exact wf_buf4|].
  apply (Push_all_write_cursor buf4 ["A"; "B"; "C"; "D"; "E"; "F"]%byte
           wf_buf4).
Defined.

(** X4: writes never touch a byte outside the window, however many they are. *)
Theorem Push_all_stays_in_window (s : CyclicBuffer) (l : list byte) :
  wf s ->
  exists s',
    Push_all l s = Some s' /\
    length (buffer s') = length (buffer s) /\
    forall j, j < bottom_index s \/ top_index s < j ->
              GetValueAt j false true s' = GetValueAt j false true s.
Proof.
  intros Hwf.
  destruct (Push_all_frame l s Hwf)
    as (s' & HP & Hwf' & _ & Hs & Ht & Hb & _ & _ & Hk).
  exists s'. split; [exact HP|]. split.
  - destruct Hwf as [(_ & Hl & _) _]. destruct Hwf' as [(_ & Hl' & _) _].
    lia.
  - intros j Hj. unfold GetValueAt. simpl. rewrite Hs, Hk by exact Hj.
    reflexivity.
Qed.

Lemma Push_all_stays_in_window_witness :
  wf buf16_bottom5_Z /\
  exists s',
    Push_all (repeat "x"%byte 40) buf16_bottom5_Z = Some s' /\
    length (buffer s') = length (buffer buf16_bottom5_Z) /\
    forall j, j < 5 \/ 15 < j ->
              GetValueAt j false true s'
              = GetValueAt j false true buf16_bottom5_Z.
Proof.
  split; [exact wf_buf16_bottom5_Z|].
  apply (Push_all_stays_in_window buf16_bottom5_Z (repeat "x"%byte 40)
           wf_buf16_bottom5_Z).
Defined.

(** X5: writing exactly as many bytes as the window has, from equal cursors,
    brings the write cursor back onto the read cursor: the next [Pop]
    returns the zero byte and moves nothing, so all of them are lost to
    [Pop]. *)
Theorem full_window_reads_as_empty (s : CyclicBuffer) (l : list byte) :
  wf s ->
  read_ptr s = write_ptr s ->
  Z.of_nat (length l) = GetBufferSize s ->
  exists s',
    Push_all l s = Some s' /\
    write_ptr s' = write_ptr s /\
    read_ptr s' = write_ptr s' /\
    Pop s' = Some (NUL, s').
Proof.
  intros Hwf Heq Hlen.
  rewrite GetBufferSize_window in Hlen by apply Hwf.
  destruct (Push_all_frame l s Hwf)
    as (s' & HP & _ & _ & _ & _ & _ & Hr & Hw & _).
  assert (Hw' : write_ptr s' = write_ptr s).
  { rewrite Hw, Hlen.
    destruct Hwf as [(_ & _ & Hb & _) [Hcw _]].
    replace (write_ptr s - bottom_index s
             + (top_index s - bottom_index s + 1))
      with (write_ptr s - bottom_index s
            + 1 * (top_index s - bottom_index s + 1)) by lia.
    rewrite Z_mod_plus_full, Z.mod_small by lia. lia. }
  exists s'. repeat split; auto; try congruence.
  unfold Pop. replace (read_ptr s') with (write_ptr s') by congruence.
  rewrite Z.eqb_refl. reflexivity.
Qed.

Lemma full_window_reads_as_empty_witness :
  wf buf4 /\
  read_ptr buf4 = write_ptr buf4 /\
  exists s',
    Push_all ["A"; "B"; "C"; "D"]%byte buf4 = Some s' /\
    write_ptr s' = write_ptr buf4 /\
    read_ptr s' = write_ptr s' /\
    Pop s' = Some (NUL, s').
Proof.
  split; [exact wf_buf4|]. split; [reflexivity|].
  apply (full_window_reads_as_empty buf4 ["A"; "B"; "C"; "D"]%byte wf_buf4);
    reflexivity.
Defined.

Lemma nth_last (l : list byte) (c : byte) :
  nth (length (l ++ [c]) - 1 - 0) (l ++ [c]) NUL = c.
Proof.
  rewrite length_app. simpl.
  replace (length l + 1 - 1 - 0)%nat with (length l) by lia.
  apply nth_middle.
Qed.

Lemma nth_before_last (l : list byte) (c : byte) (k : nat) :
  (k < length l)%nat ->
  nth (length (l ++ [c]) - 1 - S k) (l ++ [c]) NUL
  = nth (length l - 1 - k) l NUL.
Proof.
  intros Hk. rewrite length_app. simpl.
  replace (length l + 1 - 1 - S k)%nat with (length l - 1 - k)%nat by lia.
  apply app_nth1. lia.
Qed.

(** X6: after any number of writes, the byte written [k] writes before the
    last one lies [k + 1] places behind the write cursor, around the
    window, for every [k] smaller than the window: the window holds the
    latest bytes written, as many as it has places. *)
Theorem Push_all_window_contents (l : list byte) :
  forall s,
    wf s ->
    exists s',
      Push_all l s = Some s' /\
      forall k : nat,
        (k < length l)%nat ->
        Z.of_nat k < GetBufferSize s ->
        load (buffer s')
          (bottom_index s
           + (write_ptr s' - bottom_index s - 1 - Z.of_nat k)
               mod GetBufferSize s)
        = Some (nth (length l - 1 - k) l NUL).
Proof.
  induction l as [|c l IH] using rev_ind; intros s Hwf.
  - exists s. split; [reflexivity|]. simpl. intros k Hk. lia.
  - destruct (IH s Hwf) as (s1 & HP1 & Hc1).
    destruct (Push_all_frame l s Hwf)
      as (s1' & HP1' & Hwf1 & _ & Hs & Ht & Hb & _ & _ & _).
    rewrite HP1 in HP1'. injection HP1' as <-.
    rewrite GetBufferSize_window in * by apply Hwf.
    pose proof Hwf1 as [Hm1 [Hw1 _]].
    eexists. split.
    + rewrite Push_all_app, HP1. simpl.
      rewrite (Push_in_window s1 c Hm1 Hw1). reflexivity.
    + assert (Hst : store (buffer s1) (write_ptr s1) c
                    = Some (upd (buffer s1) (Z.to_nat (write_ptr s1)) c)).
      { destruct Hm1 as (_ & Hl & Hbt & Htt). apply store_in_range. lia. }
      destruct Hm1 as (_ & _ & Hbt & _).
      rewrite Ht, Hb in *.
      intros [|k] Hk Hkn; simpl buffer; simpl write_ptr.
      * rewrite nth_last.
        replace (bottom_index s
                 + (next s1 (write_ptr s1) - bottom_index s - 1 - Z.of_nat 0)
                     mod (top_index s - bottom_index s + 1))
          with (write_ptr s1).
        { eapply load_store_same; eauto. }
        rewrite mod_window by (unfold next; rewrite ?Ht, ?Hb; cases; lia).
        unfold next. rewrite ?Ht, ?Hb. cases; lia.
      * rewrite length_app in Hk. simpl in Hk.
        rewrite nth_before_last by lia.
        rewrite <- (Hc1 k) by lia.
        replace (bottom_index s
                 + (next s1 (write_ptr s1) - bottom_index s - 1
                    - Z.of_nat (S k))
                     mod (top_index s - bottom_index s + 1))
          with (bottom_index s
                + (write_ptr s1 - bottom_index s - 1 - Z.of_nat k)
                    mod (top_index s - bottom_index s + 1)).
        { eapply load_store_other; eauto.
          rewrite mod_window by lia. cases; lia. }
        f_equal.
        rewrite (mod_window _ (write_ptr s1 - bottom_index s - 1 - Z.of_nat k))
          by lia.
        rewrite mod_window by (unfold next; rewrite ?Ht, ?Hb; cases; lia).
        unfold next. rewrite ?Ht, ?Hb. cases; lia.
Qed.

Lemma Push_all_window_contents_witness :
  wf buf4 /\
  exists s',
    Push_all ["A"; "B"; "C"; "D"; "E"; "F"]%byte buf4 = Some s' /\
    forall k : nat,
      (k < 6)%nat ->
      Z.of_nat k < 4 ->
      load (buffer s') (0 + (write_ptr s' - 0 - 1 - Z.of_nat k) mod 4)
      = Some (nth (6 - 1 - k) ["A"; "B"; "C"; "D"; "E"; "F"]%byte NUL).
Proof.
  split; [exact wf_buf4|].
  apply (Push_all_window_contents ["A"; "B"; "C"; "D"; "E"; "F"]%byte buf4
           wf_buf4).
Defined.

(** ** Moving a cursor and then using it *)

(** X7: after an accepted [SetPopIndex(index)] with [index] away from the
    write cursor, [Pop] returns the byte that [GetValueAt] shows at the
    absolute index [index], and the read cursor moves one place on around
    the window. *)
Theorem SetPopIndex_then_Pop (s : CyclicBuffer) (index : Z) :
  wf s ->
  bottom_index s <= index <= top_index s ->
  index <> write_ptr s ->
  exists b s',
    snd (SetPopIndex index s) = BUFFER_OK /\
    Pop (fst (SetPopIndex index s)) = Some (b, s') /\
    GetValueAt index false false s = Some b /\
    GetPopIndex s' = next s index /\
    buffer s' = buffer s.
Proof.
  intros [(Hsz & Hl & Hb & Ht) [Hw Hr]] Hidx Hne.
  destruct (load_in_range (buffer s) index) as [b Hld]; [lia|].
  unfold SetPopIndex.
  destruct (Z.gtb_spec index (top_index s)); [lia|].
  destruct (Z.ltb_spec index (bottom_index s)); [lia|].
  simpl. unfold Pop, GetValueAt, translate, next. simpl.
  destruct (Z.eqb_spec index (write_ptr s)); [contradiction|].
  rewrite Z.geb_leb.
  destruct (Z.leb_spec (buffer_size s) index); [lia|].
  destruct (Z.gtb_spec index (top_index s)); [lia|].
  destruct (Z.ltb_spec index (bottom_index s)); [lia|]. simpl.
  destruct (Z.eqb_spec index (top_index s)) as [E|E].
  - simpl. rewrite <- E, Hld. simpl. do 2 eexists. repeat split.
  - rewrite Hld. simpl. rewrite u32_small by lia.
    do 2 eexists. repeat split.
Qed.

Lemma SetPopIndex_then_Pop_witness :
  wf buf16_ABCD /\
  exists b s',
    snd (SetPopIndex 2 buf16_ABCD) = BUFFER_OK /\
    Pop (fst (SetPopIndex 2 buf16_ABCD)) = Some (b, s') /\
    GetValueAt 2 false false buf16_ABCD = Some b /\
    GetPopIndex s' = next buf16_ABCD 2 /\
    buffer s' = buffer buf16_ABCD.
Proof.
  assert (Hwf : wf buf16_ABCD)
    by (unfold wf, mem_inv, cursor_inv, UINT_MAX; simpl; lia).
  split; [exact Hwf|].
  apply (SetPopIndex_then_Pop buf16_ABCD 2 Hwf); simpl; lia.
Defined.

(** X8: after an accepted [SetPushIndex(index)], [Push(ch)] stores [ch] at the
    absolute index [index], where [GetValueAt] then finds it, changes no
    other byte, and leaves the write cursor one place on around the
    window. *)
Theorem SetPushIndex_then_Push (s : CyclicBuffer) (index : Z) (ch : byte) :
  wf s ->
  bottom_index s <= index <= top_index s ->
  exists s',
    snd (SetPushIndex index s) = BUFFER_OK /\
    Push ch (fst (SetPushIndex index s)) = Some s' /\
    GetValueAt index false false s' = Some ch /\
    GetPushIndex s' = next s index /\
    (forall j, j <> index -> load (buffer s') j = load (buffer s) j).
Proof.
  intros [(Hsz & Hl & Hb & Ht) [Hw Hr]] Hidx.
  assert (Hst : store (buffer s) index ch
                = Some (upd (buffer s) (Z.to_nat index) ch))
    by (apply store_in_range; lia).
  unfold SetPushIndex.
  destruct (Z.gtb_spec index (top_index s)); [lia|].
  destruct (Z.ltb_spec index (bottom_index s)); [lia|].
  simpl. unfold Push. simpl. rewrite Hst. simpl.
  rewrite u32_small by lia.
  eexists. split; [reflexivity|]. split; [reflexivity|].
  unfold GetValueAt, translate, GetPushIndex, next. simpl.
  rewrite Z.geb_leb.
  destruct (Z.leb_spec (buffer_size s) index); [lia|].
  destruct (Z.gtb_spec index (top_index s)); [lia|].
  destruct (Z.ltb_spec index (bottom_index s)); [lia|]. simpl.
  repeat split.
  - eapply load_store_same; eauto.
  - cases; lia.
  - intros j Hj. eapply load_store_other; eauto.
Qed.

Lemma SetPushIndex_then_Push_witness :
  wf buf16 /\
  exists s',
    snd (SetPushIndex 15 buf16) = BUFFER_OK /\
    Push "Q"%byte (fst (SetPushIndex 15 buf16)) = Some s' /\
    GetValueAt 15 false false s' = Some "Q"%byte /\
    GetPushIndex s' = next buf16 15 /\
    (forall j, j <> 15 -> load (buffer s') j = load (buffer buf16) j).
Proof.
  split; [exact wf_buf16|].
  apply (SetPushIndex_then_Push buf16 15 "Q"%byte wf_buf16). simpl. lia.
Defined.

(** ** Refused calls *)

(** X9: a call that returns a code other than [BUFFER_OK] has written nothing
    but the cached code; a refused [SetValueAt] has written nothing at
    all. *)
Theorem refused_call_changes_only_code
    (s : CyclicBuffer) (index size : Z) (outcome : option (list byte))
    (v : byte) (uo lo : bool) :
  (snd (SetPopIndex index s) <> BUFFER_OK ->
   fst (SetPopIndex index s) = set_error (snd (SetPopIndex index s)) s) /\
  (snd (SetPushIndex index s) <> BUFFER_OK ->
   fst (SetPushIndex index s) = set_error (snd (SetPushIndex index s)) s) /\
  (forall s' e, SetTopIndex index s = Some (s', e) -> e <> BUFFER_OK ->
                s' = set_error e s) /\
  (forall s' e, SetBottomIndex index s = Some (s', e) -> e <> BUFFER_OK ->
                s' = set_error e s) /\
  (snd (ReallocBuffer size outcome s) <> BUFFER_OK ->
   fst (ReallocBuffer size outcome s)
   = set_error (snd (ReallocBuffer size outcome s)) s) /\
  (forall s' e, SetValueAt index v uo lo s = Some (s', e) -> e <> BUFFER_OK ->
                s' = s).
Proof.
  repeat split.
  - unfold SetPopIndex. cases; simpl; congruence.
  - unfold SetPushIndex. cases; simpl; congruence.
  - intros s' e. unfold SetTopIndex.
    destruct (index >? u32 (buffer_size s - 1)); [now intros [= <- <-]|].
    destruct (index <? bottom_index s); [now intros [= <- <-]|].
    match goal with |- bind ?m _ = _ -> _ => destruct m; simpl end;
      [|discriminate].
    intros [= <- <-]. congruence.
  - intros s' e. unfold SetBottomIndex.
    destruct (index >? u32 (buffer_size s - 1)); [now intros [= <- <-]|].
    destruct (index >? top_index s); [now intros [= <- <-]|].
    match goal with |- bind ?m _ = _ -> _ => destruct m; simpl end;
      [|discriminate].
    intros [= <- <-]. congruence.
  - unfold ReallocBuffer.
    destruct (size =? 0); [reflexivity|].
    destruct (size =? buffer_size s); [simpl; congruence|].
    destruct (realloc (buffer s) size outcome); simpl; congruence.
  - intros s' e. rewrite SetValueAt_unfold.
    destruct (rejected (translate index uo s) lo s); [now intros [= <- <-]|].
    destruct (store (buffer s) (translate index uo s) v); simpl;
      [|discriminate].
    intros [= <- <-]. congruence.
Qed.

Lemma refused_call_changes_only_code_witness :
  fst (SetPopIndex 16 buf16) = set_error BUFFER_INDEX_GREATER buf16 /\
  fst (SetPushIndex 2 buf16_bottom5) = set_error BUFFER_INDEX_LESS buf16_bottom5 /\
  SetTopIndex 3 buf16_bottom5
    = Some (set_error BUFFER_INDEX_COLLISION_LESS buf16_bottom5,
            BUFFER_INDEX_COLLISION_LESS) /\
  SetBottomIndex 12 buf16_top10
    = Some (set_error BUFFER_INDEX_COLLISION_GREATER buf16_top10,
            BUFFER_INDEX_COLLISION_GREATER) /\
  fst (ReallocBuffer 0 None buf16) = set_error BUFFER_INCORRECT_SIZE buf16 /\
  SetValueAt 16 "X"%byte true false buf16
    = Some (buf16, BUFFER_INDEX_OUT_OF_RANGE).
Proof.
  pose proof (refused_call_changes_only_code buf16 16 0 None "X"%byte
                true false) as (H1 & _ & _ & _ & H5 & H6).
  pose proof (refused_call_changes_only_code buf16_bottom5 2 0 None "X"%byte
                true false) as (_ & H2 & _).
  pose proof (refused_call_changes_only_code buf16_bottom5 3 0 None "X"%byte
                true false) as (_ & _ & H3 & _).
  pose proof (refused_call_changes_only_code buf16_top10 12 0 None "X"%byte
                true false) as (_ & _ & _ & H4 & _).
  assert (N1 : BUFFER_INDEX_GREATER <> BUFFER_OK) by discriminate.
  assert (N2 : BUFFER_INDEX_LESS <> BUFFER_OK) by discriminate.
  assert (N3 : BUFFER_INDEX_COLLISION_LESS <> BUFFER_OK) by discriminate.
  assert (N4 : BUFFER_INDEX_COLLISION_GREATER <> BUFFER_OK) by discriminate.
  assert (N5 : BUFFER_INCORRECT_SIZE <> BUFFER_OK) by discriminate.
  assert (N6 : BUFFER_INDEX_OUT_OF_RANGE <> BUFFER_OK) by discriminate.
  refine (conj (H1 N1) (conj (H2 N2) (conj _ (conj _ (conj (H5 N5) _))))).
  - exact (f_equal (fun x => Some (x, BUFFER_INDEX_COLLISION_LESS))
             (H3 _ _ eq_refl N3)).
  - exact (f_equal (fun x => Some (x, BUFFER_INDEX_COLLISION_GREATER))
             (H4 _ _ eq_refl N4)).
  - exact (f_equal (fun x => Some (x, BUFFER_INDEX_OUT_OF_RANGE))
             (H6 _ _ eq_refl N6)).
Defined.

(** ** Which code a border shift returns *)

(** X10: on an object whose block and borders are in order, [SetTopIndex] and
    [SetBottomIndex] always return, and the code depends on the index
    alone: [BUFFER_INDEX_GREATER] past the end of the block, else the
    collision code when the other border would be crossed, else
    [BUFFER_OK]. *)
Theorem border_shift_codes (s : CyclicBuffer) (index : Z) :
  mem_inv s ->
  0 <= index ->
  (exists s',
      SetTopIndex index s
      = Some (s', if index >? buffer_size s - 1 then BUFFER_INDEX_GREATER
                  else if index <? bottom_index s
                       then BUFFER_INDEX_COLLISION_LESS
                       else BUFFER_OK)) /\
  (exists s',
      SetBottomIndex index s
      = Some (s', if index >? buffer_size s - 1 then BUFFER_INDEX_GREATER
                  else if index >? top_index s
                       then BUFFER_INDEX_COLLISION_GREATER
                       else BUFFER_OK)).
Proof.
  intros Hm H0. pose proof Hm as (Hsz & Hl & Hb & Ht). split.
  - destruct (Z.gtb_spec index (buffer_size s - 1)) as [Hgt|Hle].
    + unfold SetTopIndex. rewrite u32_small by lia.
      destruct (Z.gtb_spec index (buffer_size s - 1)); [|lia]. eauto.
    + destruct (Z.ltb_spec index (bottom_index s)) as [Hlow|Hin].
      * unfold SetTopIndex. rewrite u32_small by lia.
        destruct (Z.gtb_spec index (buffer_size s - 1)); [lia|].
        destruct (Z.ltb_spec index (bottom_index s)); [|lia]. eauto.
      * destruct (SetTopIndex_in_range s index Hm (conj Hin Hle))
          as (s' & E & _). eauto.
  - destruct (Z.gtb_spec index (buffer_size s - 1)) as [Hgt|Hle].
    + unfold SetBottomIndex. rewrite u32_small by lia.
      destruct (Z.gtb_spec index (buffer_size s - 1)); [|lia]. eauto.
    + destruct (Z.gtb_spec index (top_index s)) as [Hhigh|Hin].
      * unfold SetBottomIndex. rewrite u32_small by lia.
        destruct (Z.gtb_spec index (buffer_size s - 1)); [lia|].
        destruct (Z.gtb_spec index (top_index s)); [|lia]. eauto.
      * destruct (SetBottomIndex_in_range s index Hm (conj H0 Hin))
          as (s' & E & _). eauto.
Qed.

Lemma border_shift_codes_witness :
  mem_inv buf16_bottom5 /\
  (exists s',
      SetTopIndex 3 buf16_bottom5 = Some (s', BUFFER_INDEX_COLLISION_LESS)) /\
  (exists s',
      SetBottomIndex 3 buf16_bottom5 = Some (s', BUFFER_OK)).
Proof.
  assert (Hm : mem_inv buf16_bottom5)
    by (unfold mem_inv, UINT_MAX; simpl; lia).
  split; [exact Hm|].
  apply (border_shift_codes buf16_bottom5 3 Hm). lia.
Defined.

(** ** The bytes under a border shift *)

(** X11: moving the top border up zeroes the bytes that enter the window and
    no other, and moves no cursor.  Moving it down changes no byte: the
    bytes cut off are hidden from [GetValueAt] unless it looks outside the
    borders. *)
Theorem SetTopIndex_bytes (s : CyclicBuffer) (index : Z) :
  wf s ->
  bottom_index s <= index <= buffer_size s - 1 ->
  exists s',
    SetTopIndex index s = Some (s', BUFFER_OK) /\
    (forall j, top_index s < j <= index ->
               GetValueAt j false true s' = Some NUL) /\
    (forall j, j <= top_index s \/ index < j ->
               GetValueAt j false true s' = GetValueAt j false true s) /\
    (forall j, index < j <= top_index s ->
               GetValueAt j false false s' = Some NUL) /\
    (top_index s <= index ->
     write_ptr s' = write_ptr s /\ read_ptr s' = read_ptr s).
Proof.
  intros [Hm [Hw Hr]] Hidx.
  destruct (SetTopIndex_in_range s index Hm Hidx)
    as (s' & E & Hs & _ & Ht & Hb & Hw' & Hr' & Hzero & Hkeep).
  destruct Hm as (Hsz & Hl & Hbt & Htt).
  exists s'. split; [exact E|].
  unfold GetValueAt, translate. simpl. rewrite Hs, Ht, Hb.
  repeat split.
  - intros j Hj. rewrite Z.geb_leb.
    destruct (Z.leb_spec (buffer_size s) j); [lia|]. apply Hzero. lia.
  - intros j Hj. rewrite Hkeep by exact Hj. reflexivity.
  - intros j Hj. rewrite Z.geb_leb.
    destruct (Z.leb_spec (buffer_size s) j); [reflexivity|].
    destruct (Z.gtb_spec j index); [reflexivity|lia].
  - rewrite Hw'. destruct (Z.gtb_spec (write_ptr s) index); lia.
  - rewrite Hr'. destruct (Z.gtb_spec (read_ptr s) index); lia.
Qed.

Lemma SetTopIndex_bytes_witness :
  wf buf16_ABCD /\
  exists s',
    SetTopIndex 1 buf16_ABCD = Some (s', BUFFER_OK) /\
    (forall j, 15 < j <= 1 -> GetValueAt j false true s' = Some NUL) /\
    (forall j, j <= 15 \/ 1 < j ->
               GetValueAt j false true s'
               = GetValueAt j false true buf16_ABCD) /\
    (forall j, 1 < j <= 15 -> GetValueAt j false false s' = Some NUL) /\
    (15 <= 1 -> write_ptr s' = 4 /\ read_ptr s' = 0).
Proof.
  assert (Hwf : wf buf16_ABCD)
    by (unfold wf, mem_inv, cursor_inv, UINT_MAX; simpl; lia).
  split; [exact Hwf|].
  apply (SetTopIndex_bytes buf16_ABCD 1 Hwf). simpl. lia.
Defined.

(** X12: moving the bottom border down zeroes the bytes that enter the window
    and no other, and moves no cursor.  Moving it up changes no byte: the
    bytes cut off are hidden from [GetValueAt] unless it looks outside the
    borders. *)
Theorem SetBottomIndex_bytes (s : CyclicBuffer) (index : Z) :
  wf s ->
  0 <= index <= top_index s ->
  exists s',
    SetBottomIndex index s = Some (s', BUFFER_OK) /\
    (forall j, index <= j < bottom_index s ->
               GetValueAt j false true s' = Some NUL) /\
    (forall j, j < index \/ bottom_index s <= j ->
               GetValueAt j false true s' = GetValueAt j false true s) /\
    (forall j, bottom_index s <= j < index ->
               GetValueAt j false false s' = Some NUL) /\
    (index <= bottom_index s ->
     write_ptr s' = write_ptr s /\ read_ptr s' = read_ptr s).
Proof.
  intros [Hm [Hw Hr]] Hidx.
  destruct (SetBottomIndex_in_range s index Hm Hidx)
    as (s' & E & Hs & _ & Ht & Hb & Hw' & Hr' & Hzero & Hkeep).
  destruct Hm as (Hsz & Hl & Hbt & Htt).
  exists s'. split; [exact E|].
  unfold GetValueAt, translate. simpl. rewrite Hs, Ht, Hb.
  repeat split.
  - intros j Hj. rewrite Z.geb_leb.
    destruct (Z.leb_spec (buffer_size s) j); [lia|]. apply Hzero. lia.
  - intros j Hj. rewrite Hkeep by exact Hj. reflexivity.
  - intros j Hj. rewrite Z.geb_leb.
    destruct (Z.leb_spec (buffer_size s) j); [reflexivity|].
    destruct (Z.gtb_spec j (top_index s)); [reflexivity|].
    destruct (Z.ltb_spec j index); [reflexivity|lia].
  - rewrite Hw'. destruct (Z.ltb_spec (write_ptr s) index); lia.
  - rewrite Hr'. destruct (Z.ltb_spec (read_ptr s) index); lia.
Qed.

Lemma SetBottomIndex_bytes_witness :
  wf buf16_bottom5_Z /\
  exists s',
    SetBottomIndex 0 buf16_bottom5_Z = Some (s', BUFFER_OK) /\
    (forall j, 0 <= j < 5 -> GetValueAt j false true s' = Some NUL) /\
    (forall j, j < 0 \/ 5 <= j ->
               GetValueAt j false true s'
               = GetValueAt j false true buf16_bottom5_Z) /\
    (forall j, 5 <= j < 0 -> GetValueAt j false false s' = Some NUL) /\
    (0 <= 5 -> write_ptr s' = 5 /\ read_ptr s' = 5).
Proof.
  split; [exact wf_buf16_bottom5_Z|].
  apply (SetBottomIndex_bytes buf16_bottom5_Z 0 wf_buf16_bottom5_Z).
  simpl. lia.
Defined.

(** X13: moving the top border down to [index] and back up to where it was
    wipes the bytes in between: every byte above [index] up to the old top
    border is zero afterwards. *)
Theorem SetTopIndex_down_and_up (s : CyclicBuffer) (index : Z) :
  mem_inv s ->
  bottom_index s <= index <= top_index s ->
  exists s1 s2,
    SetTopIndex index s = Some (s1, BUFFER_OK) /\
    SetTopIndex (top_index s) s1 = Some (s2, BUFFER_OK) /\
    top_index s2 = top_index s /\
    bottom_index s2 = bottom_index s /\
    (forall j, index < j <= top_index s -> load (buffer s2) j = Some NUL) /\
    (forall j, j <= index \/ top_index s < j ->
               load (buffer s2) j = load (buffer s) j).
Proof.
  intros Hm Hidx. pose proof Hm as (Hsz & Hl & Hb & Ht).
  destruct (SetTopIndex_in_range s index Hm)
    as (s1 & E1 & Hs1 & Hl1 & Ht1 & Hb1 & _ & _ & _ & Hkeep1); [lia|].
  assert (Hm1 : mem_inv s1).
  { unfold mem_inv. rewrite Hs1, Hl1, Ht1, Hb1. lia. }
  destruct (SetTopIndex_in_range s1 (top_index s) Hm1)
    as (s2 & E2 & Hs2 & Hl2 & Ht2 & Hb2 & _ & _ & Hzero2 & Hkeep2).
  { rewrite Hs1, Hb1. lia. }
  exists s1, s2. rewrite Ht1 in *. repeat split; auto; try congruence.
  intros j Hj. rewrite Hkeep2 by lia. apply Hkeep1. lia.
Qed.

Lemma SetTopIndex_down_and_up_witness :
  mem_inv buf16_ABCD /\
  exists s1 s2,
    SetTopIndex 1 buf16_ABCD = Some (s1, BUFFER_OK) /\
    SetTopIndex 15 s1 = Some (s2, BUFFER_OK) /\
    top_index s2 = 15 /\
    bottom_index s2 = 0 /\
    (forall j, 1 < j <= 15 -> load (buffer s2) j = Some NUL) /\
    (forall j, j <= 1 \/ 15 < j ->
               load (buffer s2) j = load (buffer buf16_ABCD) j).
Proof.
  assert (Hm : mem_inv buf16_ABCD)
    by (unfold mem_inv, UINT_MAX; simpl; lia).
  split; [exact Hm|].
  apply (SetTopIndex_down_and_up buf16_ABCD 1 Hm). simpl. lia.
Defined.

(** ** [ResetBuffer] and [ClearBuffer] *)

(** X14: whatever the borders and cursors are, [ResetBuffer] on a block of
    [buffer_size] bytes zeroes every byte of the block, top byte included,
    puts the borders at 0 and [buffer_size - 1] and both cursors at 0, and
    leaves the cached code; the invariant holds afterwards. *)
Theorem ResetBuffer_restores (s : CyclicBuffer) :
  1 <= buffer_size s <= UINT_MAX ->
  Z.of_nat (length (buffer s)) = buffer_size s ->
  exists s',
    ResetBuffer s = Some s' /\
    wf s' /\
    buffer_size s' = buffer_size s /\
    bottom_index s' = 0 /\
    top_index s' = buffer_size s - 1 /\
    write_ptr s' = 0 /\
    read_ptr s' = 0 /\
    buffer_error_code s' = buffer_error_code s /\
    (forall j, 0 <= j < buffer_size s -> load (buffer s') j = Some NUL).
Proof.
  intros Hsz Hlen. unfold ResetBuffer. simpl.
  rewrite u32_small by lia.
  destruct (zero_loop_spec (Z.to_nat (buffer_size s - 1 + 1))
              (fun i => i <=? buffer_size s - 1) 0 (buffer s))
    as (buf' & Hz & Hl & Hzero & _).
  - intros j Hj. apply Z.leb_le. lia.
  - apply Z.leb_gt. lia.
  - lia.
  - lia.
  - lia.
  - rewrite Hz. simpl. eexists. split; [reflexivity|].
    unfold wf, mem_inv, cursor_inv. simpl. rewrite Hl.
    repeat split; auto; try lia.
    intros j Hj. apply Hzero. lia.
Qed.

Lemma ResetBuffer_restores_witness :
  exists s',
    ResetBuffer (fst (ReallocBuffer 8 (Some []) buf16_bottom5_push12))
      = Some s' /\
    wf s' /\
    buffer_size s' = 8 /\
    bottom_index s' = 0 /\
    top_index s' = 8 - 1 /\
    write_ptr s' = 0 /\
    read_ptr s' = 0 /\
    buffer_error_code s' = BUFFER_OK /\
    (forall j, 0 <= j < 8 -> load (buffer s') j = Some NUL).
Proof.
  apply (ResetBuffer_restores
           (fst (ReallocBuffer 8 (Some []) buf16_bottom5_push12)));
    unfold UINT_MAX; simpl; lia.
Defined.

(** X15: [ClearBuffer] zeroes the bytes from the bottom border up to, but not
    including, the top border; the byte at the top border, the bytes
    outside the window and every field stay as they were. *)
Theorem ClearBuffer_all_but_top (s : CyclicBuffer) :
  mem_inv s ->
  exists s',
    ClearBuffer s = Some s' /\
    s' = set_buffer (buffer s') s /\
    length (buffer s') = length (buffer s) /\
    (forall j, bottom_index s <= j < top_index s ->
               load (buffer s') j = Some NUL) /\
    load (buffer s') (top_index s) = load (buffer s) (top_index s) /\
    (forall j, j < bottom_index s \/ top_index s < j ->
               load (buffer s') j = load (buffer s) j).
Proof.
  intros Hm.
  destruct (ClearBuffer_spec s Hm) as (buf' & E & Hl & Hzero & Hkeep).
  eexists. split; [exact E|]. simpl. repeat split; auto.
  - apply Hkeep. lia.
  - intros j Hj. apply Hkeep. lia.
Qed.

Lemma ClearBuffer_all_but_top_witness :
  mem_inv buf16_ABCD /\
  exists s',
    ClearBuffer buf16_ABCD = Some s' /\
    s' = set_buffer (buffer s') buf16_ABCD /\
    length (buffer s') = length (buffer buf16_ABCD) /\
    (forall j, 0 <= j < 15 -> load (buffer s') j = Some NUL) /\
    load (buffer s') 15 = Some "#"%byte /\
    (forall j, j < 0 \/ 15 < j ->
               load (buffer s') j = load (buffer buf16_ABCD) j).
Proof.
  assert (Hm : mem_inv buf16_ABCD)
    by (unfold mem_inv, UINT_MAX; simpl; lia).
  split; [exact Hm|].
  apply (ClearBuffer_all_but_top buf16_ABCD Hm).
Defined.

(** ** Reallocation that succeeds *)

Lemma load_realloc (old fresh : list byte) (size j : Z) :
  0 <= j < size ->
  j < Z.of_nat (length old) ->
  load (firstn (Z.to_nat size) (old ++ fresh)) j = load old j.
Proof.
  intros Hj Hold. unfold load.
  destruct (j <? 0); [reflexivity|].
  rewrite nth_error_firstn.
  destruct (Nat.ltb_spec (Z.to_nat j) (Z.to_nat size)); [|lia].
  apply nth_error_app1. lia.
Qed.

(** X16: a [ReallocBuffer] whose [realloc] succeeds sets [buffer_size] to the
    new size, keeps every byte below the smaller of the two sizes, and
    when the block grows it moves neither a border nor a cursor and the
    invariant holds as before. *)
Theorem ReallocBuffer_success (s : CyclicBuffer) (size : Z) (fresh : list byte) :
  wf s ->
  1 <= size <= UINT_MAX ->
  size <= Z.of_nat (length (buffer s) + length fresh) ->
  let r := ReallocBuffer size (Some fresh) s in
  snd r = BUFFER_OK /\
  buffer_size (fst r) = size /\
  Z.of_nat (length (buffer (fst r))) = size /\
  (forall j, 0 <= j < size -> j < buffer_size s ->
             load (buffer (fst r)) j = load (buffer s) j) /\
  (buffer_size s <= size ->
   wf (fst r) /\
   top_index (fst r) = top_index s /\
   bottom_index (fst r) = bottom_index s /\
   write_ptr (fst r) = write_ptr s /\
   read_ptr (fst r) = read_ptr s).
Proof.
  intros [(Hsz & Hl & Hb & Ht) [Hw Hr]] Hsize Hfresh. unfold ReallocBuffer.
  destruct (Z.eqb_spec size 0); [lia|].
  destruct (Z.eqb_spec size (buffer_size s)) as [E|E].
  - simpl. unfold wf, mem_inv, cursor_inv. simpl. repeat split; auto; lia.
  - assert (Hlen : Z.of_nat (length (firstn (Z.to_nat size)
                                       (buffer s ++ fresh))) = size).
    { rewrite length_firstn, length_app. lia. }
    simpl. rewrite u32_small by lia.
    destruct (top_index s >? size - 1) eqn:E1; simpl;
      destruct (bottom_index s >? size - 1) eqn:E2; simpl;
      destruct (read_ptr s >? size - 1) eqn:E3; simpl;
      destruct (write_ptr s >? size - 1) eqn:E4; simpl;
      (split; [reflexivity|]); (split; [reflexivity|]);
      (split; [exact Hlen|]);
      (split; [intros j Hj Hold; apply load_realloc; lia|]);
      intros Hgrow; unfold wf, mem_inv, cursor_inv; simpl; rewrite Hlen;
      lia.
Qed.

Lemma ReallocBuffer_success_witness :
  wf buf16_ABCD /\
  let r := ReallocBuffer 32 (Some (repeat "?"%byte 16)) buf16_ABCD in
  snd r = BUFFER_OK /\
  buffer_size (fst r) = 32 /\
  Z.of_nat (length (buffer (fst r))) = 32 /\
  (forall j, 0 <= j < 32 -> j < 16 ->
             load (buffer (fst r)) j = load (buffer buf16_ABCD) j) /\
  (16 <= 32 ->
   wf (fst r) /\
   top_index (fst r) = 15 /\
   bottom_index (fst r) = 0 /\
   write_ptr (fst r) = 4 /\
   read_ptr (fst r) = 0).
Proof.
  assert (Hwf : wf buf16_ABCD)
    by (unfold wf, mem_inv, cursor_inv, UINT_MAX; simpl; lia).
  split; [exact Hwf|].
  apply (ReallocBuffer_success buf16_ABCD 32 (repeat "?"%byte 16) Hwf);
    unfold UINT_MAX; simpl; lia.
Defined.

(** X17: a [ReallocBuffer] whose [realloc] succeeds keeps the invariant in all
    cases but one: the write cursor lies past the new block, the bottom
    border is above 0 and the new block has more than one byte. *)
Theorem ReallocBuffer_wf_iff (s : CyclicBuffer) (size : Z) (fresh : list byte) :
  wf s ->
  1 <= size <= UINT_MAX ->
  size <= Z.of_nat (length (buffer s) + length fresh) ->
  wf (fst (ReallocBuffer size (Some fresh) s)) <->
  ~ (size - 1 < write_ptr s /\ 0 < bottom_index s /\ 1 < size).
Proof.
  intros [(Hsz & Hl & Hb & Ht) [Hw Hr]] Hsize Hfresh. unfold ReallocBuffer.
  destruct (Z.eqb_spec size 0); [lia|].
  destruct (Z.eqb_spec size (buffer_size s)) as [E|E].
  - simpl. unfold wf, mem_inv, cursor_inv. simpl. split; intros; lia.
  - assert (Hlen : Z.of_nat (length (firstn (Z.to_nat size)
                                       (buffer s ++ fresh))) = size).
    { rewrite length_firstn, length_app. lia. }
    simpl. rewrite u32_small by lia.
    destruct (Z.gtb_spec (top_index s) (size - 1)); simpl;
      destruct (Z.gtb_spec (bottom_index s) (size - 1)); simpl;
      destruct (Z.gtb_spec (read_ptr s) (size - 1)); simpl;
      destruct (Z.gtb_spec (write_ptr s) (size - 1)); simpl;
      unfold wf, mem_inv, cursor_inv; simpl; rewrite Hlen;
      split; intros; lia.
Qed.

Lemma ReallocBuffer_wf_iff_witness :
  wf buf16_bottom5_push12 /\
  (wf (fst (ReallocBuffer 8 (Some []) buf16_bottom5_push12)) <->
   ~ (8 - 1 < 12 /\ 0 < 5 /\ 1 < 8)).
Proof.
  split; [exact wf_buf16_bottom5_push12|].
  apply (ReallocBuffer_wf_iff buf16_bottom5_push12 8 []
           wf_buf16_bottom5_push12); unfold UINT_MAX; simpl; lia.
Defined.

(** ** The invariant and memory safety *)

Lemma translate_nonneg (s : CyclicBuffer) (index : Z) (uo : bool) :
  0 <= index -> 0 <= translate index uo s.
Proof.
  intros H0. unfold translate, u32. destruct uo; [|lia].
  apply Z.mod_pos_bound. lia.
Qed.

Lemma GetValueAt_returns (s : CyclicBuffer) (index : Z) (uo lo : bool) :
  mem_inv s -> 0 <= index -> exists b, GetValueAt index uo lo s = Some b.
Proof.
  intros (Hsz & Hl & Hb & Ht) H0. rewrite GetValueAt_unfold.
  destruct (rejected (translate index uo s) lo s) eqn:R; [eauto|].
  apply orb_false_iff in R as [R _].
  rewrite Z.geb_leb in R. apply Z.leb_gt in R.
  apply load_in_range. pose proof (translate_nonneg s index uo H0). lia.
Qed.

(** X19: on an object that satisfies the invariant, every member function but
    [ReallocBuffer] returns without touching memory outside the block, and
    the object satisfies the invariant afterwards. *)
Theorem invariant_kept
    (s : CyclicBuffer) (index : Z) (ch : byte) (uo lo : bool) :
  wf s ->
  0 <= index ->
  (exists s', Push ch s = Some s' /\ wf s') /\
  (exists b s', Pop s = Some (b, s') /\ wf s') /\
  wf (fst (SetPopIndex index s)) /\
  wf (fst (SetPushIndex index s)) /\
  (exists r, SetTopIndex index s = Some r /\ wf (fst r)) /\
  (exists r, SetBottomIndex index s = Some r /\ wf (fst r)) /\
  (exists s', ClearBuffer s = Some s' /\ wf s') /\
  (exists s', ResetBuffer s = Some s' /\ wf s') /\
  (exists r, SetValueAt index ch uo lo s = Some r /\ wf (fst r)) /\
  (exists b, GetValueAt index uo lo s = Some b).
Proof.
  intros Hwf H0.
  split; [apply Push_wf; exact Hwf|].
  split; [apply Pop_wf; exact Hwf|].
  split; [apply SetPopIndex_wf; exact Hwf|].
  split; [apply SetPushIndex_wf; exact Hwf|].
  split; [apply SetTopIndex_wf; exact Hwf|].
  split; [apply SetBottomIndex_wf; assumption|].
  split; [apply ClearBuffer_wf; exact Hwf|].
  split; [apply ResetBuffer_wf; apply Hwf|].
  split; [apply SetValueAt_wf; assumption|].
  apply GetValueAt_returns; [apply Hwf|exact H0].
Qed.

Lemma invariant_kept_witness :
  wf buf16_bottom5_push12 /\
  (exists s', Push "A"%byte buf16_bottom5_push12 = Some s' /\ wf s') /\
  (exists b s', Pop buf16_bottom5_push12 = Some (b, s') /\ wf s') /\
  wf (fst (SetPopIndex 7 buf16_bottom5_push12)) /\
  wf (fst (SetPushIndex 7 buf16_bottom5_push12)) /\
  (exists r, SetTopIndex 7 buf16_bottom5_push12 = Some r /\ wf (fst r)) /\
  (exists r, SetBottomIndex 7 buf16_bottom5_push12 = Some r /\ wf (fst r)) /\
  (exists s', ClearBuffer buf16_bottom5_push12 = Some s' /\ wf s') /\
  (exists s', ResetBuffer buf16_bottom5_push12 = Some s' /\ wf s') /\
  (exists r, SetValueAt 7 "A"%byte true false buf16_bottom5_push12 = Some r
             /\ wf (fst r)) /\
  (exists b, GetValueAt 7 true false buf16_bottom5_push12 = Some b).
Proof.
  split; [exact wf_buf16_bottom5_push12|].
  apply (invariant_kept buf16_bottom5_push12 7 "A"%byte true false
           wf_buf16_bottom5_push12). lia.
Defined.

(** ** Random access with the default flags *)

Lemma translate_offset (s : CyclicBuffer) (index : Z) :
  0 <= index <= UINT_MAX ->
  0 <= bottom_index s <= UINT_MAX ->
  translate index true s
  = if index + bottom_index s <=? UINT_MAX
    then index + bottom_index s
    else index + bottom_index s - 4294967296.
Proof.
  unfold translate, u32, UINT_MAX. intros Hi Hb.
  destruct (Z.leb_spec (index + bottom_index s) 4294967295).
  - apply Z.mod_small. lia.
  - rewrite <- (Z_mod_plus_full (index + bottom_index s) (-1) 4294967296).
    apply Z.mod_small. lia.
Qed.

(** X20: with [use_offset] and without [look_outside_borders], an index below
    the size of the window reaches the byte that far above the bottom
    border, for reading and for writing, and every other index an
    [unsigned int] can hold is refused, also when the addition wraps. *)
Theorem default_flags_access (s : CyclicBuffer) (index : Z) (v : byte) :
  mem_inv s ->
  0 <= index <= UINT_MAX ->
  (index < GetBufferSize s ->
   GetValueAt index true false s = load (buffer s) (bottom_index s + index) /\
   exists s',
     SetValueAt index v true false s = Some (s', BUFFER_OK) /\
     load (buffer s') (bottom_index s + index) = Some v) /\
  (GetBufferSize s <= index ->
   GetValueAt index true false s = Some NUL /\
   SetValueAt index v true false s = Some (s, BUFFER_INDEX_OUT_OF_RANGE)).
Proof.
  intros Hm Hi. rewrite GetBufferSize_window by exact Hm.
  destruct Hm as (Hsz & Hl & Hb & Ht).
  pose proof (translate_offset s index Hi) as Htr.
  rewrite GetValueAt_unfold, SetValueAt_unfold. unfold rejected.
  rewrite Htr by lia. rewrite Z.geb_leb. unfold UINT_MAX in *.
  split; intros Hidx.
  - destruct (Z.leb_spec (index + bottom_index s) 4294967295); [|lia].
    destruct (Z.leb_spec (buffer_size s) (index + bottom_index s)); [lia|].
    destruct (Z.gtb_spec (index + bottom_index s) (top_index s)); [lia|].
    destruct (Z.ltb_spec (index + bottom_index s) (bottom_index s)); [lia|].
    simpl. rewrite (Z.add_comm index). split; [reflexivity|].
    rewrite store_in_range by lia. simpl.
    eexists. split; [reflexivity|]. simpl.
    apply (load_store_same (buffer s)). apply store_in_range. lia.
  - destruct (Z.leb_spec (index + bottom_index s) 4294967295).
    + destruct (Z.leb_spec (buffer_size s) (index + bottom_index s));
        [auto|].
      destruct (Z.gtb_spec (index + bottom_index s) (top_index s)); [auto|lia].
    + destruct (Z.leb_spec (buffer_size s)
                  (index + bottom_index s - 4294967296)); [auto|].
      destruct (Z.gtb_spec (index + bottom_index s - 4294967296)
                  (top_index s)); [auto|].
      destruct (Z.ltb_spec (index + bottom_index s - 4294967296)
                  (bottom_index s)); [auto|lia].
Qed.

Lemma default_flags_access_witness :
  mem_inv buf16_bottom5_Z /\
  (GetValueAt 3 true false buf16_bottom5_Z
   = load (buffer buf16_bottom5_Z) (5 + 3) /\
   exists s',
     SetValueAt 3 "v"%byte true false buf16_bottom5_Z
       = Some (s', BUFFER_OK) /\
     load (buffer s') (5 + 3) = Some "v"%byte) /\
  (GetValueAt 4294967291 true false buf16_bottom5_Z = Some NUL /\
   SetValueAt 4294967291 "v"%byte true false buf16_bottom5_Z
     = Some (buf16_bottom5_Z, BUFFER_INDEX_OUT_OF_RANGE)).
Proof.
  pose proof (proj1 wf_buf16_bottom5_Z) as Hm.
  split; [exact Hm|]. split.
  - apply (proj1 (default_flags_access buf16_bottom5_Z 3 "v"%byte Hm
                    ltac:(unfold UINT_MAX; lia))).
    vm_compute. reflexivity.
  - apply (proj2 (default_flags_access buf16_bottom5_Z 4294967291 "v"%byte
                    Hm ltac:(unfold UINT_MAX; lia))).
    vm_compute. discriminate.
Defined.

(** X21: [SetValueAt] returns [BUFFER_OK] or [BUFFER_INDEX_OUT_OF_RANGE] and
    nothing else; it writes no field and no byte other than the one at the
    translated index. *)
Theorem SetValueAt_frame
    (s s' : CyclicBuffer) (index : Z) (v : byte) (uo lo : bool)
    (e : buffer_error) :
  SetValueAt index v uo lo s = Some (s', e) ->
  (e = BUFFER_OK \/ e = BUFFER_INDEX_OUT_OF_RANGE) /\
  s' = set_buffer (buffer s') s /\
  length (buffer s') = length (buffer s) /\
  (forall j, j <> translate index uo s ->
             load (buffer s') j = load (buffer s) j).
Proof.
  rewrite SetValueAt_unfold.
  destruct (rejected (translate index uo s) lo s).
  - intros [= <- <-]. repeat split; auto. destruct s; reflexivity.
  - destruct (store (buffer s) (translate index uo s) v) as [buf'|] eqn:St;
      simpl; [|discriminate].
    intros [= <- <-]. simpl. repeat split; auto.
    + eapply length_store; eauto.
    + intros j Hj. eapply load_store_other; eauto.
Qed.

Lemma SetValueAt_frame_witness :
  (BUFFER_OK = BUFFER_OK \/ BUFFER_OK = BUFFER_INDEX_OUT_OF_RANGE) /\
  buf16_bottom5_Z = set_buffer (buffer buf16_bottom5_Z) buf16_bottom5 /\
  length (buffer buf16_bottom5_Z) = length (buffer buf16_bottom5) /\
  (forall j, j <> translate 0 false buf16_bottom5 ->
             load (buffer buf16_bottom5_Z) j
             = load (buffer buf16_bottom5) j).
Proof.
  apply (SetValueAt_frame buf16_bottom5 buf16_bottom5_Z 0 "Z"%byte false true
           BUFFER_OK).
  reflexivity.
Defined.

(** ** What the constructor can leave behind *)



(** X18: a [ReallocBuffer] that shrinks the block pulls each border down to the
    new last index when it lies past it; a read cursor past the new block
    goes to the bottom border as just clamped, a write cursor past it goes
    to index 0; cursors and borders inside the new block stay. *)
Theorem ReallocBuffer_shrink_clamps
    (s : CyclicBuffer) (size : Z) (fresh : list byte) :
  mem_inv s ->
  1 <= size < buffer_size s ->
  let r := ReallocBuffer size (Some fresh) s in
  snd r = BUFFER_OK /\
  top_index (fst r) = Z.min (top_index s) (size - 1) /\
  bottom_index (fst r) = Z.min (bottom_index s) (size - 1) /\
  read_ptr (fst r) = (if read_ptr s >? size - 1
                      then Z.min (bottom_index s) (size - 1)
                      else read_ptr s) /\
  write_ptr (fst r) = (if write_ptr s >? size - 1 then 0 else write_ptr s).
Proof.
  intros (Hsz & Hl & Hb & Ht) Hsize. unfold ReallocBuffer.
  destruct (Z.eqb_spec size 0); [lia|].
  destruct (Z.eqb_spec size (buffer_size s)); [lia|].
  simpl. rewrite u32_small by lia.
  destruct (Z.gtb_spec (top_index s) (size - 1)); simpl;
    destruct (Z.gtb_spec (bottom_index s) (size - 1)); simpl;
    destruct (read_ptr s >? size - 1); simpl;
    destruct (write_ptr s >? size - 1); simpl;
    repeat split; lia.
Qed.

Lemma ReallocBuffer_shrink_clamps_witness :
  mem_inv buf16_bottom5_push12 /\
  let r := ReallocBuffer 4 (Some []) buf16_bottom5_push12 in
  snd r = BUFFER_OK /\
  top_index (fst r) = Z.min 15 (4 - 1) /\
  bottom_index (fst r) = Z.min 5 (4 - 1) /\
  read_ptr (fst r) = Z.min 5 (4 - 1) /\
  write_ptr (fst r) = 0.
Proof.
  pose proof (proj1 wf_buf16_bottom5_push12) as Hm.
  split; [exact Hm|].
  apply (ReallocBuffer_shrink_clamps buf16_bottom5_push12 4 [] Hm).
  simpl. lia.
Defined.

(** ** The further concrete objects are the ones the code builds *)

Example buf16_ABCD_reached :
  Push_all ["A"; "B"; "C"; "D"]%byte buf16 = Some buf16_ABCD.
Proof. reflexivity. Qed.

Example buf16_top10_reached :
  SetTopIndex 10 buf16 = Some (buf16_top10, BUFFER_OK).
Proof. reflexivity. Qed.
